(** * Release publication workflow of pocketlib-api

    A shallow embedding of [src/resolvers/storeBookRelease.ts]:
    [retrieveStoreBookRelease] and [publishStoreBookRelease].

    The resolvers are [async] functions that talk to a Prisma client, to
    pdf.js and to the clock.  They are embedded as programs of a small
    free monad [Prog]: every [await]ed call is an [Await] node carrying the
    operation and the continuation, a JavaScript [throw] is a [Throw] leaf.
    [run] interprets one call from start to end against a [World]; [step]
    performs one operation at a time, which is what two calls in flight over
    the same store are interleaved with. *)

From Stdlib Require Import ZArith QArith List String Bool Lia.
Import ListNotations.
Local Open Scope string_scope.
Local Open Scope list_scope.
Local Open Scope Z_scope.

Set Implicit Arguments.

(** ** Data model *)

(** A value a GraphQL argument may carry: the key can be missing from the
    [args] object ([undefined]), explicitly [null], or hold a value.
    JavaScript's [x != null] is false on the first two; Prisma leaves a
    column alone for [undefined] and clears it for [null]. *)
Inductive Optional (A : Type) : Type :=
| Undefined
| Null
| Value (a : A).
Arguments Undefined {A}.
Arguments Null {A}.

Record StoreBookPrintCover := mkPrintCover { printCoverUuid : string }.
Record StoreBookPrintFile := mkPrintFile { printFileUuid : string }.

(** A row of the [storeBookRelease] table, as [findFirst] returns it with
    [include: { printCover: true, printFile: true }]: the two relations are
    [None] when no print asset is attached. *)
Record StoreBookRelease := mkRelease {
  id : Z;
  uuid : string;
  userId : Z;
  storeBookId : Z;
  releaseName : string;
  releaseNotes : option string;
  publishedAt : option Z;
  title : string;
  price : Z;
  status : option string;
  coverId : option Z;
  fileId : option Z;
  printCover : option StoreBookPrintCover;
  printFile : option StoreBookPrintFile
}.

Record StoreBook := mkStoreBook {
  bookId : Z;
  bookStatus : option string
}.

Record User := mkUser { userIdent : Z }.

Record ResolverContext := mkContext { user : option User }.

(** [page._pageInfo.view], the four numbers the code destructures as
    [[x, y, w, h]]. *)
Definition PageView : Type := (Q * Q * Q * Q)%type.

(** The handle [getDocument(url).promise] resolves to: pages are fetched on
    demand with [getPage]. *)
Record PDFDocumentProxy := mkPdf {
  pdfUrl : string;
  numPages : Z
}.

Record PublishArgs := mkArgs {
  argUuid : option string;
  argReleaseName : string;
  argReleaseNotes : Optional string
}.

(** The [data] object of the [update] call at the end of
    [publishStoreBookRelease]. *)
Record UpdateData := mkData {
  dataStatus : string;
  dataReleaseName : string;
  dataReleaseNotes : Optional string;
  dataPublishedAt : Z
}.

(** What lies outside the process: the two tables, the asset store (a
    document per retrieval URL, given by the views of its pages) and the
    clock. *)
Record World := mkWorld {
  storeBookReleases : list StoreBookRelease;
  storeBooks : list StoreBook;
  assets : list (string * list PageView);
  clock : Z
}.

(** ** Errors *)

(** The members of [apiErrors] the two resolvers use. *)
Inductive ApiError : Type :=
| notAuthenticated
| storeBookReleaseDoesNotExist
| actionNotAllowed
| storeBookReleaseAlreadyPublished
| storeBookNotPublished.

(** What a call can end with instead of a value: a business error thrown by
    [throwApiError], the aggregate thrown by [throwValidationError], the
    [TypeError] of reading a property of [null], or a rejected promise of a
    collaborator (storage, network, document parsing). *)
Inductive Exception : Type :=
| ApiErr (e : ApiError)
| ValidationFailed (errors : list string)
| TypeError (property : string)
| Rejected (what : string).

(** ** Programs *)

Inductive Op : Type :=
| FindFirstRelease (uuid : string)
| FindFirstStoreBook (id : Z)
| GetDocument (url : string)
| GetPage (pdf : PDFDocumentProxy) (pageNumber : Z)
| NewDate
| UpdateRelease (id : Z) (data : UpdateData).

Definition Answer (op : Op) : Type :=
  match op with
  | FindFirstRelease _ => option StoreBookRelease
  | FindFirstStoreBook _ => option StoreBook
  | GetDocument _ => PDFDocumentProxy
  | GetPage _ _ => PageView
  | NewDate => Z
  | UpdateRelease _ _ => StoreBookRelease
  end.

Inductive Prog (A : Type) : Type :=
| Ret (a : A)
| Throw (e : Exception)
| Await (op : Op) (k : Answer op -> Prog A).
Arguments Throw {A} e.

Fixpoint bind {A B : Type} (m : Prog A) (f : A -> Prog B) : Prog B :=
  match m with
  | Ret a => f a
  | Throw e => Throw e
  | Await op k => Await op (fun x => bind (k x) f)
  end.

Definition await (op : Op) : Prog (Answer op) := Await op (fun x => Ret x).

(** The calls the resolvers [await], at their result types. *)
Definition storeBookRelease_findFirst (uuid : string) : Prog (option StoreBookRelease) :=
  await (FindFirstRelease uuid).
Definition storeBook_findFirst (id : Z) : Prog (option StoreBook) :=
  await (FindFirstStoreBook id).
Definition getDocument (url : string) : Prog PDFDocumentProxy :=
  await (GetDocument url).
Definition getPage (pdf : PDFDocumentProxy) (pageNumber : Z) : Prog PageView :=
  await (GetPage pdf pageNumber).
Definition newDate : Prog Z :=
  await NewDate.
Definition storeBookRelease_update (id : Z) (data : UpdateData) : Prog StoreBookRelease :=
  await (UpdateRelease id data).

Declare Scope prog_scope.
Delimit Scope prog_scope with prog.
Notation "x <- m ;; k" := (bind m (fun x => k))
  (at level 61, m at next level, right associativity) : prog_scope.
Notation "m ;; k" := (bind m (fun _ => k))
  (at level 61, right associativity) : prog_scope.
Local Open Scope prog_scope.

(** ** The collaborators *)

(** JavaScript [==] between a nullable string and a string literal. *)
Definition looseEq (s : option string) (lit : string) : bool :=
  match s with
  | Some s' => String.eqb s' lit
  | None => false
  end.

Definition findFirstRelease (w : World) (u : string) : option StoreBookRelease :=
  find (fun r => String.eqb (uuid r) u) (storeBookReleases w).

Definition findFirstStoreBook (w : World) (i : Z) : option StoreBook :=
  find (fun b => bookId b =? i) (storeBooks w).

Fixpoint lookupAsset (l : list (string * list PageView)) (url : string)
  : option (list PageView) :=
  match l with
  | [] => None
  | (u, pages) :: rest => if String.eqb u url then Some pages else lookupAsset rest url
  end.

(** Prisma's [update]: a key that is [undefined] in [data] is left as it is. *)
Definition applyNotes (n : Optional string) (old : option string) : option string :=
  match n with
  | Undefined => old
  | Null => None
  | Value s => Some s
  end.

Definition applyData (d : UpdateData) (r : StoreBookRelease) : StoreBookRelease :=
  {| id := id r;
     uuid := uuid r;
     userId := userId r;
     storeBookId := storeBookId r;
     releaseName := dataReleaseName d;
     releaseNotes := applyNotes (dataReleaseNotes d) (releaseNotes r);
     publishedAt := Some (dataPublishedAt d);
     title := title r;
     price := price r;
     status := Some (dataStatus d);
     coverId := coverId r;
     fileId := fileId r;
     printCover := printCover r;
     printFile := printFile r |}.

(** [update({ where: { id }, data })] on the table: the row with that
    primary key is rewritten, every other row is kept. *)
Fixpoint updateRows (i : Z) (d : UpdateData) (rows : list StoreBookRelease)
  : list StoreBookRelease :=
  match rows with
  | [] => []
  | r :: rest =>
      if id r =? i then applyData d r :: rest else r :: updateRows i d rest
  end.

Definition setReleases (w : World) (rows : list StoreBookRelease) : World :=
  {| storeBookReleases := rows;
     storeBooks := storeBooks w;
     assets := assets w;
     clock := clock w |}.

Definition getPageView (w : World) (pdf : PDFDocumentProxy) (n : Z) : option PageView :=
  match lookupAsset (assets w) (pdfUrl pdf) with
  | Some pages => if 1 <=? n then nth_error pages (Z.to_nat (n - 1)) else None
  | None => None
  end.

(** One operation against the world: its answer or the rejection, and the
    world afterwards.  Only [UpdateRelease] changes the world. *)
Definition handle (w : World) (op : Op) : (Exception + Answer op) * World :=
  match op return (Exception + Answer op) * World with
  | FindFirstRelease u => (inr (findFirstRelease w u), w)
  | FindFirstStoreBook i => (inr (findFirstStoreBook w i), w)
  | GetDocument url =>
      match lookupAsset (assets w) url with
      | Some pages => (inr (mkPdf url (Z.of_nat (List.length pages))), w)
      | None => (inl (Rejected "getDocument"), w)
      end
  | GetPage pdf n =>
      match getPageView w pdf n with
      | Some v => (inr v, w)
      | None => (inl (Rejected "getPage"), w)
      end
  | NewDate => (inr (clock w), w)
  | UpdateRelease i d =>
      match find (fun r => id r =? i) (storeBookReleases w) with
      | Some r => (inr (applyData d r), setReleases w (updateRows i d (storeBookReleases w)))
      | None => (inl (Rejected "update"), w)
      end
  end.

(** ** Running a call *)

Record Outcome (A : Type) := mkOutcome {
  result : Exception + A;
  final : World;
  trace : list Op
}.

Fixpoint run {A : Type} (p : Prog A) (w : World) : Outcome A :=
  match p with
  | Ret a => mkOutcome (inr a) w []
  | Throw e => mkOutcome (inl e) w []
  | Await op k =>
      match handle w op with
      | (inl e, w') => mkOutcome (inl e) w' [op]
      | (inr x, w') =>
          let o := run (k x) w' in
          mkOutcome (result o) (final o) (op :: trace o)
      end
  end.

(** One atomic turn of a call in flight: the pending operation is performed
    and the call moves to the code after that [await]. *)
Definition step {A : Type} (p : Prog A) (w : World) : Prog A * World :=
  match p with
  | Await op k =>
      match handle w op with
      | (inl e, w') => (Throw e, w')
      | (inr x, w') => (k x, w')
      end
  | _ => (p, w)
  end.

(** Two calls in flight over one world; the schedule says whose turn it is
    ([true]: the first call). *)
Fixpoint interleave {A : Type} (schedule : list bool) (p1 p2 : Prog A) (w : World)
  : Prog A * Prog A * World :=
  match schedule with
  | [] => (p1, p2, w)
  | true :: rest => let '(p1', w') := step p1 w in interleave rest p1' p2 w'
  | false :: rest => let '(p2', w') := step p2 w in interleave rest p1 p2' w'
  end.

(** The call has performed all its reads and is about to write (or is over). *)
Fixpoint advance {A : Type} (w : World) (p : Prog A) : Prog A :=
  match p with
  | Await (UpdateRelease i d) k => Await (UpdateRelease i d) k
  | Await op k =>
      match handle w op with
      | (inl e, _) => Throw e
      | (inr x, _) => advance w (k x)
      end
  | _ => p
  end.

(** ** What the resolvers import *)

(** [services/validationService.js]: each validator answers the failure
    message, or nothing when the value is acceptable.  The thresholds are
    the deployment's; the resolvers are verified for every choice of them. *)
Record ValidationService := mkValidationService {
  validateReleaseNameLength : string -> option string;
  validateReleaseNotesLength : string -> option string;
  validateStoreBookPrintCoverPages : Z -> option string;
  validateStoreBookPrintFilePages : Z -> option string;
  validateStoreBookPrintCoverPageSize : Q -> Q -> Z -> option string;
  validateStoreBookPrintFilePageSize : Q -> Q -> option string
}.

(** [admins] of [constants.js], [getTableObjectFileUrl] of [utils.js] and
    the validation service. *)
Record Imports := mkImports {
  admins : list Z;
  getTableObjectFileUrl : string -> string;
  validation : ValidationService
}.

(** Modelled from the spec: [throwApiError] of [utils.js] is not among the
    sources.  It signals the given business error; the caller relies on it
    never returning (the code after [if (user == null) throwApiError(...)]
    reads [user.id]). *)
Definition throwApiError {A : Type} (e : ApiError) : Prog A :=
  Throw (ApiErr e).

(** The messages among the answers of validators, in order. *)
Fixpoint failures (errors : list (option string)) : list string :=
  match errors with
  | [] => []
  | Some e :: rest => e :: failures rest
  | None :: rest => failures rest
  end.

(** Modelled from the spec: [throwValidationError] of [utils.js] is not
    among the sources.  The failures among its arguments are gathered into
    a single list, "reported to the caller as one combined error only if
    non-empty". *)
Definition throwValidationError (errors : list (option string)) : Prog unit :=
  match failures errors with
  | [] => Ret tt
  | e :: es => Throw (ValidationFailed (e :: es))
  end.

(** ** The resolvers *)

Definition withDefaultStatus (r : StoreBookRelease) : StoreBookRelease :=
  {| id := id r;
     uuid := uuid r;
     userId := userId r;
     storeBookId := storeBookId r;
     releaseName := releaseName r;
     releaseNotes := releaseNotes r;
     publishedAt := publishedAt r;
     title := title r;
     price := price r;
     status := match status r with None => Some "unpublished" | Some s => Some s end;
     coverId := coverId r;
     fileId := fileId r;
     printCover := printCover r;
     printFile := printFile r |}.

(** [retrieveStoreBookRelease] (lines 26-43).  [release.status] is read
    without a test of [release]. *)
Definition retrieveStoreBookRelease (argsUuid : option string)
  : Prog (option StoreBookRelease) :=
  match argsUuid with
  | None => Ret None
  | Some uuid =>
      release <- storeBookRelease_findFirst uuid ;;
      match release with
      | None => Throw (TypeError "status")
      | Some release => Ret (Some (withDefaultStatus release))
      end
  end.

Section Resolvers.

Variable I : Imports.
Let V := validation I.

(** The body of [for (let i = 1; i <= printFilePages; i++)], [count]
    iterations from page [i] on. *)
Fixpoint validatePrintFilePageSizes (printFilePdf : PDFDocumentProxy) (i : Z) (count : nat)
  : Prog unit :=
  match count with
  | O => Ret tt
  | S count' =>
      page <- getPage printFilePdf i ;;
      let '(_, _, w, h) := page in
      throwValidationError [validateStoreBookPrintFilePageSize V w h] ;;
      validatePrintFilePageSizes printFilePdf (i + 1) count'
  end.

(** Lines 108-142, the block guarded by both print assets being there. *)
Definition validatePrintAssets (printCover : StoreBookPrintCover) (printFile : StoreBookPrintFile)
  : Prog unit :=
  let printCoverUrl := getTableObjectFileUrl I (printCoverUuid printCover) in
  let printFileUrl := getTableObjectFileUrl I (printFileUuid printFile) in
  printFilePdf <- getDocument printFileUrl ;;
  let printFilePages := numPages printFilePdf in
  throwValidationError [validateStoreBookPrintFilePages V printFilePages] ;;
  validatePrintFilePageSizes printFilePdf 1 (Z.to_nat printFilePages) ;;
  printCoverPdf <- getDocument printCoverUrl ;;
  let printCoverPages := numPages printCoverPdf in
  throwValidationError [validateStoreBookPrintCoverPages V printCoverPages] ;;
  printCoverFirstPage <- getPage printCoverPdf 1 ;;
  let '(_, _, w, h) := printCoverFirstPage in
  throwValidationError
    [validateStoreBookPrintCoverPageSize V w h (numPages printFilePdf)].

(** Lines 96-100: the list handed to the first [throwValidationError]. *)
Definition argErrors (args : PublishArgs) : list (option string) :=
  [validateReleaseNameLength V (argReleaseName args)]
  ++ match argReleaseNotes args with
     | Value notes => [validateReleaseNotesLength V notes]
     | _ => []
     end.

Definition publishData (args : PublishArgs) (now : Z) : UpdateData :=
  {| dataStatus := "published";
     dataReleaseName := argReleaseName args;
     dataReleaseNotes := argReleaseNotes args;
     dataPublishedAt := now |}.

(** Lines 95-154: validation of the arguments and of the print assets,
    then the write. *)
Definition validateAndUpdate (args : PublishArgs) (storeBookRelease : StoreBookRelease)
  : Prog (option StoreBookRelease) :=
  throwValidationError (argErrors args) ;;
  match printCover storeBookRelease, printFile storeBookRelease with
  | Some printCover, Some printFile => validatePrintAssets printCover printFile
  | _, _ => Ret tt
  end ;;
  now <- newDate ;;
  updated <- storeBookRelease_update (id storeBookRelease) (publishData args now) ;;
  Ret (Some updated).

(** [publishStoreBookRelease] (lines 45-155). *)
Definition publishStoreBookRelease (args : PublishArgs) (context : ResolverContext)
  : Prog (option StoreBookRelease) :=
  match argUuid args with
  | None => Ret None
  | Some uuid =>
  match user context with
  | None => throwApiError notAuthenticated
  | Some user =>
  let isAdmin := existsb (Z.eqb (userIdent user)) (admins I) in
  storeBookRelease <- storeBookRelease_findFirst uuid ;;
  match storeBookRelease with
  | None => throwApiError storeBookReleaseDoesNotExist
  | Some storeBookRelease =>
  if negb isAdmin && negb (userId storeBookRelease =? userIdent user)
  then throwApiError actionNotAllowed
  else
  if looseEq (status storeBookRelease) "published"
  then throwApiError storeBookReleaseAlreadyPublished
  else
  storeBook <- storeBook_findFirst (storeBookId storeBookRelease) ;;
  match storeBook with
  | None => Throw (TypeError "status")
  | Some storeBook =>
  if negb (looseEq (bookStatus storeBook) "published")
     && negb (looseEq (bookStatus storeBook) "hidden")
  then throwApiError storeBookNotPublished
  else validateAndUpdate args storeBookRelease
  end end end end.

End Resolvers.

(** ** A deployment to evaluate the resolvers on *)

(** Modelled from the spec: [validationService.js] is not among the
    sources.  A configuration of the shape the design describes: name and
    notes bounded in length, an interior of 24 to 800 pages of 432 x 648
    points, a cover of exactly one page whose width grows with the number
    of interior pages (the spine). *)
Definition sampleValidation : ValidationService :=
  {| validateReleaseNameLength := fun name =>
       if Z.of_nat (String.length name) <? 2 then Some "release_name_too_short"
       else if 100 <? Z.of_nat (String.length name) then Some "release_name_too_long"
       else None;
     validateReleaseNotesLength := fun notes =>
       if 5700 <? Z.of_nat (String.length notes) then Some "release_notes_too_long"
       else None;
     validateStoreBookPrintCoverPages := fun pages =>
       if pages =? 1 then None else Some "store_book_print_cover_pages_invalid";
     validateStoreBookPrintFilePages := fun pages =>
       if (24 <=? pages) && (pages <=? 800) then None
       else Some "store_book_print_file_pages_invalid";
     validateStoreBookPrintCoverPageSize := fun w h pages =>
       if Qle_bool (864 + inject_Z pages * (9 # 50)) w && Qle_bool 648 h then None
       else Some "store_book_print_cover_page_size_invalid";
     validateStoreBookPrintFilePageSize := fun w h =>
       if Qeq_bool w 432 && Qeq_bool h 648 then None
       else Some "store_book_print_file_page_size_invalid" |}.

(** Modelled from the spec: [constants.js] and [getTableObjectFileUrl] of
    [utils.js] are not among the sources.  The allow-list of privileged
    operators holds user 1; the retrieval URL of an asset follows the
    pattern [utils.ts] uses for covers and logos. *)
Definition sampleImports : Imports :=
  {| admins := [1];
     getTableObjectFileUrl := fun uuid =>
       ("https://dav-backend.fra1.cdn.digitaloceanspaces.com/" ++ uuid)%string;
     validation := sampleValidation |}.

Definition interiorPage : PageView := (0, 0, 432, 648)%Q.

Definition sampleRelease : StoreBookRelease :=
  {| id := 7;
     uuid := "R1";
     userId := 42;
     storeBookId := 3;
     releaseName := "Draft";
     releaseNotes := Some "first notes";
     publishedAt := None;
     title := "A Book";
     price := 1299;
     status := None;
     coverId := Some 11;
     fileId := Some 12;
     printCover := None;
     printFile := None |}.

Definition otherRelease : StoreBookRelease :=
  {| id := 8;
     uuid := "R2";
     userId := 43;
     storeBookId := 3;
     releaseName := "Second";
     releaseNotes := None;
     publishedAt := None;
     title := "A Book";
     price := 1299;
     status := Some "unpublished";
     coverId := None;
     fileId := None;
     printCover := None;
     printFile := None |}.

Definition withPrint (r : StoreBookRelease) : StoreBookRelease :=
  {| id := id r;
     uuid := uuid r;
     userId := userId r;
     storeBookId := storeBookId r;
     releaseName := releaseName r;
     releaseNotes := releaseNotes r;
     publishedAt := publishedAt r;
     title := title r;
     price := price r;
     status := status r;
     coverId := coverId r;
     fileId := fileId r;
     printCover := Some (mkPrintCover "PC1");
     printFile := Some (mkPrintFile "PF1") |}.

Definition sampleAssets (interior : list PageView) (cover : list PageView)
  : list (string * list PageView) :=
  [ ("https://dav-backend.fra1.cdn.digitaloceanspaces.com/PF1", interior);
    ("https://dav-backend.fra1.cdn.digitaloceanspaces.com/PC1", cover) ].

(** Release R1 of owner 42, digital only, parent book published. *)
Definition digitalWorld : World :=
  {| storeBookReleases := [sampleRelease; otherRelease];
     storeBooks := [mkStoreBook 3 (Some "published")];
     assets := [];
     clock := 1700000000 |}.

(** The same release with print assets: an interior of [n] good pages and a
    one-page cover of the given width. *)
Definition printWorld (n : nat) (coverWidth : Q) : World :=
  {| storeBookReleases := [withPrint sampleRelease; otherRelease];
     storeBooks := [mkStoreBook 3 (Some "published")];
     assets := sampleAssets (repeat interiorPage n) [(0, 0, coverWidth, 648)%Q];
     clock := 1700000000 |}.

Definition owner : ResolverContext := mkContext (Some (mkUser 42)).
Definition stranger : ResolverContext := mkContext (Some (mkUser 99)).
Definition operator : ResolverContext := mkContext (Some (mkUser 1)).
Definition anonymous : ResolverContext := mkContext None.

Definition firstEdition : PublishArgs := mkArgs (Some "R1") "First Edition" Null.
Definition secondEdition : PublishArgs := mkArgs (Some "R1") "Second Edition" Null.

(** R1 after an earlier publication. *)
Definition publishedWorld : World :=
  {| storeBookReleases := [applyData (publishData firstEdition 1600000000) sampleRelease;
                           otherRelease];
     storeBooks := [mkStoreBook 3 (Some "published")];
     assets := [];
     clock := 1700000000 |}.

(** R1 with print assets, under a parent book that is still in review. *)
Definition reviewWorld : World :=
  {| storeBookReleases := [withPrint sampleRelease; otherRelease];
     storeBooks := [mkStoreBook 3 (Some "review")];
     assets := sampleAssets (repeat interiorPage 24) [(0, 0, 900, 648)%Q];
     clock := 1700000000 |}.

(** R1 pointing to a book that is not in the store. *)
Definition orphanWorld : World :=
  {| storeBookReleases := [sampleRelease; otherRelease];
     storeBooks := [];
     assets := [];
     clock := 1700000000 |}.

Definition badPage : PageView := (0, 0, 400, 648)%Q.

(** An interior of 24 good pages followed by one of the wrong width. *)
Definition badPageWorld : World :=
  {| storeBookReleases := [withPrint sampleRelease; otherRelease];
     storeBooks := [mkStoreBook 3 (Some "published")];
     assets := sampleAssets (repeat interiorPage 24 ++ [badPage]) [(0, 0, 900, 648)%Q];
     clock := 1700000000 |}.

(** Turns for two calls on [digitalWorld], each of which reads the release,
    reads the book, reads the clock and writes: both calls read, then both
    write. *)
Definition raceSchedule : list bool :=
  [true; true; true; false; false; false; true; false].

(** ** Vocabulary of the properties *)

Definition isWrite (op : Op) : bool :=
  match op with
  | UpdateRelease _ _ => true
  | _ => false
  end.

(** Opening a print document or fetching one of its pages. *)
Definition isInspection (op : Op) : bool :=
  match op with
  | GetDocument _ | GetPage _ _ => true
  | _ => false
  end.

Definition writes (t : list Op) : list Op := filter isWrite t.
Definition inspections (t : list Op) : list Op := filter isInspection t.

(** A program without [UpdateRelease] anywhere. *)
Inductive ReadOnly {A : Type} : Prog A -> Prop :=
| ReadOnly_Ret a : ReadOnly (Ret a)
| ReadOnly_Throw e : ReadOnly (Throw e)
| ReadOnly_Await op k :
    isWrite op = false -> (forall x, ReadOnly (k x)) -> ReadOnly (Await op k).

(** A call that is over. *)
Definition finished {A : Type} (p : Prog A) : option (Exception + A) :=
  match p with
  | Ret a => Some (inr a)
  | Throw e => Some (inl e)
  | Await _ _ => None
  end.

(** The owner-or-operator test of line 76, positively. *)
Definition authorized (I : Imports) (u : User) (r : StoreBookRelease) : bool :=
  existsb (Z.eqb (userIdent u)) (admins I) || (userId r =? userIdent u).

(** The parent-status test of line 91, positively. *)
Definition eligible (b : StoreBook) : bool :=
  looseEq (bookStatus b) "published" || looseEq (bookStatus b) "hidden".

(** The call gets as far as the validation of its arguments: it names a
    release that exists, the caller may act on it, the release is not
    published and its parent book exists and is published or hidden. *)
Definition Reaches (I : Imports) (w : World) (args : PublishArgs) (context : ResolverContext)
  (u : string) (caller : User) (r : StoreBookRelease) (b : StoreBook) : Prop :=
  argUuid args = Some u /\
  user context = Some caller /\
  findFirstRelease w u = Some r /\
  authorized I caller r = true /\
  looseEq (status r) "published" = false /\
  findFirstStoreBook w (storeBookId r) = Some b /\
  eligible b = true.

(** The status of a release as the data model reads it: no recorded status
    counts as unpublished; the recorded ones are the two of the model. *)
Definition effectiveStatus (r : StoreBookRelease) : string :=
  match status r with
  | None => "unpublished"
  | Some s => s
  end.

Definition statusInModel (r : StoreBookRelease) : Prop :=
  status r = None \/ status r = Some "unpublished" \/ status r = Some "published".

Definition sizeError (V : ValidationService) (v : PageView) : option string :=
  let '(_, _, w, h) := v in validateStoreBookPrintFilePageSize V w h.

(** The first page whose size is refused: how many pages before it passed,
    and the message. *)
Fixpoint firstBadPage (V : ValidationService) (views : list PageView)
  : option (nat * string) :=
  match views with
  | [] => None
  | v :: rest =>
      match sizeError V v with
      | Some m => Some (O, m)
      | None =>
          match firstBadPage V rest with
          | Some (k, m) => Some (S k, m)
          | None => None
          end
      end
  end.

(** Fetching [n] consecutive pages from page [i] on. *)
Fixpoint pageOps (pdf : PDFDocumentProxy) (i : Z) (n : nat) : list Op :=
  match n with
  | O => []
  | S n' => GetPage pdf i :: pageOps pdf (i + 1) n'
  end.

(** The outcome of the print block, read off the two documents. *)
Definition inspectPrintAssets (I : Imports) (w : World)
  (c : StoreBookPrintCover) (f : StoreBookPrintFile) : Outcome unit :=
  let V := validation I in
  let fu := getTableObjectFileUrl I (printFileUuid f) in
  let cu := getTableObjectFileUrl I (printCoverUuid c) in
  match lookupAsset (assets w) fu with
  | None => mkOutcome (inl (Rejected "getDocument")) w [GetDocument fu]
  | Some fp =>
  let fpdf := mkPdf fu (Z.of_nat (List.length fp)) in
  match validateStoreBookPrintFilePages V (Z.of_nat (List.length fp)) with
  | Some m => mkOutcome (inl (ValidationFailed [m])) w [GetDocument fu]
  | None =>
  match firstBadPage V fp with
  | Some (k, m) =>
      mkOutcome (inl (ValidationFailed [m])) w (GetDocument fu :: pageOps fpdf 1 (S k))
  | None =>
  let opened := GetDocument fu :: pageOps fpdf 1 (List.length fp) ++ [GetDocument cu] in
  match lookupAsset (assets w) cu with
  | None => mkOutcome (inl (Rejected "getDocument")) w opened
  | Some cp =>
  let cpdf := mkPdf cu (Z.of_nat (List.length cp)) in
  match validateStoreBookPrintCoverPages V (Z.of_nat (List.length cp)) with
  | Some m => mkOutcome (inl (ValidationFailed [m])) w opened
  | None =>
  match cp with
  | [] => mkOutcome (inl (Rejected "getPage")) w (opened ++ [GetPage cpdf 1])
  | (_, _, cw, ch) :: _ =>
  match validateStoreBookPrintCoverPageSize V cw ch (Z.of_nat (List.length fp)) with
  | Some m => mkOutcome (inl (ValidationFailed [m])) w (opened ++ [GetPage cpdf 1])
  | None => mkOutcome (inr tt) w (opened ++ [GetPage cpdf 1])
  end end end end end end end.

(** The outcome of the print stage of a release: nothing to do unless
    both print assets are attached. *)
Definition inspectRelease (I : Imports) (w : World) (r : StoreBookRelease) : Outcome unit :=
  match printCover r, printFile r with
  | Some c, Some f => inspectPrintAssets I w c f
  | _, _ => mkOutcome (inr tt) w []
  end.

(** ** The claims that do not hold as they are stated *)

(** What C9 says: a call that names a release that does not exist ends in
    [storeBookReleaseDoesNotExist], whoever calls. *)
Definition missingReleaseIsNotFound (I : Imports) (w : World) (args : PublishArgs)
  (context : ResolverContext) : Prop :=
  forall u, argUuid args = Some u -> findFirstRelease w u = None ->
  result (run (publishStoreBookRelease I args context) w)
  = inl (ApiErr storeBookReleaseDoesNotExist).

(** Both documents can be opened and every print check accepts them (or
    the release is digital only). *)
Definition printAssetsValid (I : Imports) (w : World) (r : StoreBookRelease) : Prop :=
  match printCover r, printFile r with
  | Some c, Some f =>
      exists fp x y cw ch cp',
        lookupAsset (assets w) (getTableObjectFileUrl I (printFileUuid f)) = Some fp /\
        lookupAsset (assets w) (getTableObjectFileUrl I (printCoverUuid c))
        = Some ((x, y, cw, ch) :: cp') /\
        validateStoreBookPrintFilePages (validation I) (Z.of_nat (List.length fp)) = None /\
        Forall (fun v => sizeError (validation I) v = None) fp /\
        validateStoreBookPrintCoverPages (validation I)
          (Z.of_nat (List.length ((x, y, cw, ch) :: cp'))) = None /\
        validateStoreBookPrintCoverPageSize (validation I) cw ch (Z.of_nat (List.length fp))
        = None
  | _, _ => True
  end.

(** The failures of the print stage as the design lists them: every check
    of the stage contributes its failure. *)
Definition printStageFailures (I : Imports) (w : World)
  (c : StoreBookPrintCover) (f : StoreBookPrintFile) : list string :=
  let V := validation I in
  match lookupAsset (assets w) (getTableObjectFileUrl I (printFileUuid f)),
        lookupAsset (assets w) (getTableObjectFileUrl I (printCoverUuid c)) with
  | Some fp, Some cp =>
      failures
        [ validateStoreBookPrintFilePages V (Z.of_nat (List.length fp));
          option_map snd (firstBadPage V fp);
          validateStoreBookPrintCoverPages V (Z.of_nat (List.length cp));
          match cp with
          | (_, _, cw, ch) :: _ =>
              validateStoreBookPrintCoverPageSize V cw ch (Z.of_nat (List.length fp))
          | [] => None
          end ]
  | _, _ => []
  end.

(** The validation pipeline in the words of the design, section 4.2:
    every stage runs and adds its failure to one list. *)
Definition validatePublication (I : Imports) (w : World) (r : StoreBookRelease)
  (args : PublishArgs) : list string :=
  failures (argErrors I args)
  ++ match printCover r, printFile r with
     | Some c, Some f => printStageFailures I w c f
     | _, _ => []
     end.

(** The message of the first print check that refuses the two documents,
    in the order of lines 120, 127, 134 and 140: page count of the
    interior, size of each interior page in turn, page count of the cover,
    size of the first page of the cover against the interior page count. *)
Definition firstPrintFailure (V : ValidationService) (interior cover : list PageView)
  : option string :=
  match validateStoreBookPrintFilePages V (Z.of_nat (List.length interior)) with
  | Some m => Some m
  | None =>
  match firstBadPage V interior with
  | Some (_, m) => Some m
  | None =>
  match validateStoreBookPrintCoverPages V (Z.of_nat (List.length cover)) with
  | Some m => Some m
  | None =>
  match cover with
  | (_, _, cw, ch) :: _ =>
      validateStoreBookPrintCoverPageSize V cw ch (Z.of_nat (List.length interior))
  | [] => None
  end end end end.

(** What C5 says: for a call that gets to validation, a print document is
    looked at exactly when both print assets are attached. *)
Definition printStageRunsIffAttached (I : Imports) (w : World) (args : PublishArgs)
  (context : ResolverContext) : Prop :=
  forall u caller r b,
    Reaches I w args context u caller r b ->
    (inspections (trace (run (publishStoreBookRelease I args context) w)) <> [] <->
     printCover r <> None /\ printFile r <> None).

(** What C1 says: a call that gets to validation and has any failing stage
    ends in [ValidationFailed] with the failures of all stages. *)
Definition reportsEveryFailure (I : Imports) (w : World) (args : PublishArgs)
  (context : ResolverContext) : Prop :=
  forall u caller r b,
    Reaches I w args context u caller r b ->
    validatePublication I w r args <> [] ->
    result (run (publishStoreBookRelease I args context) w)
    = inl (ValidationFailed (validatePublication I w r args)).

Definition isSuccess (res : Exception + option StoreBookRelease) : bool :=
  match res with
  | inr (Some _) => true
  | _ => false
  end.

Definition isAlreadyPublished (res : Exception + option StoreBookRelease) : bool :=
  match res with
  | inl (ApiErr storeBookReleaseAlreadyPublished) => true
  | _ => false
  end.

(** What C2 says: however two calls on the release are interleaved, once
    both are over one has succeeded and the other was told that the release
    is already published. *)
Definition oneSuccessOneConflict (I : Imports) (w : World)
  (args1 : PublishArgs) (context1 : ResolverContext)
  (args2 : PublishArgs) (context2 : ResolverContext) : Prop :=
  forall schedule p1 p2 w' res1 res2,
    interleave schedule (publishStoreBookRelease I args1 context1)
      (publishStoreBookRelease I args2 context2) w = (p1, p2, w') ->
    finished p1 = Some res1 ->
    finished p2 = Some res2 ->
    (isSuccess res1 = true /\ isAlreadyPublished res2 = true) \/
    (isAlreadyPublished res1 = true /\ isSuccess res2 = true).

(** ** The field resolvers of a release *)

(** A row of the [storeBookCover] table. *)
Record StoreBookCoverRow := mkCoverRow {
  coverRowId : Z;
  coverRowUuid : string;
  coverRowAspectRatio : string;
  coverRowBlurhash : string
}.

(** What [cover] answers: [{ ...cover, url }]. *)
Record StoreBookCover := mkCover {
  coverRow : StoreBookCoverRow;
  coverUrl : string
}.

Record StoreBookFile := mkFile {
  fileRowId : Z;
  fileRowUuid : string;
  fileName : option string
}.

(** A row of the [category] table, with the ids of the releases it is
    related to: the relation the [where] of [categories] goes through. *)
Record Category := mkCategory {
  categoryId : Z;
  categoryUuid : string;
  categoryKey : string;
  categoryReleases : list Z
}.

(** The tables the field resolvers read. *)
Record Catalog := mkCatalog {
  storeBookCovers : list StoreBookCoverRow;
  storeBookFiles : list StoreBookFile;
  categoryTable : list Category
}.

(** [List<T>] of [types.js]. *)
Record List (A : Type) := mkList {
  total : Z;
  items : list A
}.

Record ListArgs := mkListArgs {
  limit : option Z;
  offset : option Z
}.

(** JavaScript [x || d] on an optional integer: [null], [undefined] and 0
    give [d]. *)
Definition orElse (x : option Z) (d : Z) : Z :=
  match x with
  | Some v => if v =? 0 then d else v
  | None => d
  end.

(** JavaScript [x ?? d]: only [null] and [undefined] give [d]. *)
Definition nullish (x : option Z) (d : Z) : Z :=
  match x with
  | Some v => v
  | None => d
  end.

(** [cover] (lines 157-178). *)
Definition cover (I : Imports) (db : Catalog) (storeBookRelease : StoreBookRelease)
  : option StoreBookCover :=
  match coverId storeBookRelease with
  | None => None
  | Some coverId =>
      match find (fun c => coverRowId c =? coverId) (storeBookCovers db) with
      | None => None
      | Some cover => Some (mkCover cover (getTableObjectFileUrl I (coverRowUuid cover)))
      end
  end.

(** [file] (lines 180-192). *)
Definition file (db : Catalog) (storeBookRelease : StoreBookRelease) : option StoreBookFile :=
  match fileId storeBookRelease with
  | None => None
  | Some fileId => find (fun f => fileRowId f =? fileId) (storeBookFiles db)
  end.

(** The local [take] of [categories] (lines 227-228). *)
Definition categoriesTake (args : ListArgs) : Z :=
  let take := orElse (limit args) 10 in
  if take <=? 0 then 10 else take.

(** The local [skip] of [categories] (lines 230-231). *)
Definition categoriesSkip (args : ListArgs) : Z :=
  let skip := orElse (offset args) 0 in
  if skip <? 0 then 0 else skip.

(** The [where] of [categories]: some related release has the id of the
    release at hand. *)
Definition relatedTo (storeBookRelease : StoreBookRelease) (c : Category) : bool :=
  existsb (Z.eqb (id storeBookRelease)) (categoryReleases c).

(** Prisma's [findMany({ where, take, skip })] for [take] and [skip] that
    are not negative, the only ones [categories] passes: the matching
    rows, without the first [skip], cut after [take].  The query has no
    [orderBy]; the order of [table] stands for the order in which the
    database lists the rows for this one query, and nothing is said about
    the order of another query. *)
Definition findMany {A : Type} (where_ : A -> bool) (take skip : Z) (table : list A) : list A :=
  firstn (Z.to_nat take) (skipn (Z.to_nat skip) (filter where_ table)).

Definition count {A : Type} (where_ : A -> bool) (table : list A) : Z :=
  Z.of_nat (List.length (filter where_ table)).

(** [categories] (lines 222-248); the two queries run in one transaction,
    on the same table. *)
Definition categories (db : Catalog) (storeBookRelease : StoreBookRelease) (args : ListArgs)
  : List Category :=
  let take := categoriesTake args in
  let skip := categoriesSkip args in
  let where_ := relatedTo storeBookRelease in
  {| total := count where_ (categoryTable db);
     items := findMany where_ take skip (categoryTable db) |}.

(** ** The catalogue search *)

(** The argument of [getProducts]. *)
Record GetProductsParams := mkGetProductsParams {
  paramQuery : string;
  paramPage : Z;
  paramSize : Z;
  paramActive : bool
}.

Record SearchArgs := mkSearchArgs {
  searchQuery : string;
  searchLimit : option Z;
  searchOffset : option Z
}.

Record QueryResult (A : Type) := mkQueryResult {
  caching : bool;
  data : A
}.

Definition searchTake (args : SearchArgs) : Z :=
  let take := nullish (searchLimit args) 10 in
  if take <=? 0 then 10 else take.

Definition searchSkip (args : SearchArgs) : Z :=
  let skip := nullish (searchOffset args) 0 in
  if skip <? 0 then 0 else skip.

(** *** Numbers

    [limit] and [offset] are JavaScript numbers with integer values; the
    comparisons of [search] are exact on them, the division and the
    addition are rounded to the nearest double (ties to even).  A double
    is kept as a mantissa and an exponent, [m * 2 ^ s]. *)

(** [d * 2 ^ e <= n], for an exponent of either sign. *)
Definition scaledLe (e d n : Z) : bool :=
  if 0 <=? e then d * 2 ^ e <=? n else d <=? n * 2 ^ (- e).

(** The binade of [n / d] for positive [n] and [d]: the greatest [e] with
    [2 ^ e <= n / d]. *)
Definition binade (n d : Z) : Z :=
  let e := Z.log2 n - Z.log2 d in
  if scaledLe e d n then e else e - 1.

(** [n / d] rounded to the nearest integer, a tie going to the even one. *)
Definition roundHalfEven (n d : Z) : Z :=
  let q := n / d in
  let r := n mod d in
  if 2 * r <? d then q
  else if d <? 2 * r then q + 1
  else if Z.even q then q else q + 1.

(** The double nearest to [n / d]: 53 bits of mantissa, the exponent not
    below that of the subnormal numbers. *)
Definition nearestDouble (n d : Z) : Z * Z :=
  let s := Z.max (binade n d - 52) (-1074) in
  (if 0 <? s then roundHalfEven n (d * 2 ^ s) else roundHalfEven (n * 2 ^ (- s)) d, s).

(** [Math.floor] of a double. *)
Definition floorDouble (x : Z * Z) : Z :=
  let '(m, s) := x in
  if 0 <? s then m * 2 ^ s else m / 2 ^ (- s).

(** [Math.floor(a / b)] for positive [a] and [b]. *)
Definition floorOfQuotient (a b : Z) : Z := floorDouble (nearestDouble a b).

(** [n + 1] for a non-negative integer [n]. *)
Definition plusOne (n : Z) : Z := floorDouble (nearestDouble (n + 1) 1).

Section Search.

(** [String.prototype.toLowerCase], the product and item types, and the
    two functions [search] imports: [getProducts] of [vlbApiService.js],
    which answers the products of one page and the number of all matches,
    and the converter of [utils.js]. *)
Variable toLowerCase : string -> string.
Variables Product VlbItem : Type.
Variable getProducts : GetProductsParams -> list Product * Z.
Variable convertVlbGetProductsResponseDataItemToVlbItem : Product -> VlbItem.

(** The object handed to [getProducts] (lines 22-29); [take > 0] and
    [skip > 0] where the quotient is taken. *)
Definition searchRequest (args : SearchArgs) : GetProductsParams :=
  let take := searchTake args in
  let skip := searchSkip args in
  {| paramQuery := (toLowerCase (searchQuery args) ++ " und (pt=pbook) und (li=20)")%string;
     paramPage := if 0 <? skip then plusOne (floorOfQuotient skip take) else 1;
     paramSize := take;
     paramActive := true |}.

(** [search] (lines 11-44). *)
Definition search (args : SearchArgs) : QueryResult (List VlbItem) :=
  let '(content, totalElements) := getProducts (searchRequest args) in
  {| caching := true;
     data := {| total := totalElements;
                items := map convertVlbGetProductsResponseDataItemToVlbItem content |} |}.

End Search.

(** ** Table objects *)

(** A value of the [properties] of a table object. *)
Inductive PropertyValue : Type :=
| PropString (s : string)
| PropNumber (n : Q)
| PropBoolean (b : bool).

(** [TableObject] of [types.js]; a key that is not there reads as
    [undefined], here [None]. *)
Record TableObject := mkTableObject {
  objUuid : string;
  objUserId : Z;
  objTableId : Z;
  properties : string -> option PropertyValue
}.

(** The three answers of [utils.ts] that carry a URL; [as string] is erased
    at run time, so the other fields hold whatever the property holds. *)
Record UrlAndBlurhash := mkUrlAndBlurhash {
  ubUuid : string;
  ubUrl : string;
  ubBlurhash : option PropertyValue
}.

Record ConvertedCover := mkConvertedCover {
  ccUuid : string;
  ccUrl : string;
  ccAspectRatio : option PropertyValue;
  ccBlurhash : option PropertyValue
}.

(** The template of lines 38, 72 and 153. *)
Definition cdnUrl (uuid : string) : string :=
  ("https://dav-backend.fra1.cdn.digitaloceanspaces.com/" ++ uuid)%string.

(** [convertTableObjectToPublisherLogo] (lines 33-41). *)
Definition convertTableObjectToPublisherLogo (obj : TableObject) : UrlAndBlurhash :=
  {| ubUuid := objUuid obj;
     ubUrl := cdnUrl (objUuid obj);
     ubBlurhash := properties obj "blurhash" |}.

(** [convertTableObjectToAuthorProfileImage] (lines 67-75). *)
Definition convertTableObjectToAuthorProfileImage (obj : TableObject) : UrlAndBlurhash :=
  {| ubUuid := objUuid obj;
     ubUrl := cdnUrl (objUuid obj);
     ubBlurhash := properties obj "blurhash" |}.

(** [convertTableObjectToStoreBookCover] (lines 148-157). *)
Definition convertTableObjectToStoreBookCover (obj : TableObject) : ConvertedCover :=
  {| ccUuid := objUuid obj;
     ccUrl := cdnUrl (objUuid obj);
     ccAspectRatio := properties obj "aspect_ratio";
     ccBlurhash := properties obj "blurhash" |}.

(** ** The webhook *)






Section Webhook.

(** [process.env.WEBHOOK_KEY], which is [undefined] when the variable is
    not set, and [retrieveOrder] of the API service, which answers the
    order or [null], or is rejected: it awaits the request without a
    [catch]. *)
Variable webhookKey : option string.
Variable Order : Type.
Variable retrieveOrder : option string -> Exception + option Order.


End Webhook.

(** ** Vocabulary of the further properties *)

(** The invariant of the data model: [publishedAt] is set exactly on the
    published releases. *)
Definition publishedAtConsistent (r : StoreBookRelease) : Prop :=
  publishedAt r <> None <-> status r = Some "published".

(** A row after a call: as it was, or rewritten by the write of the call. *)
Definition keptOrPublished (d : UpdateData) (before after : StoreBookRelease) : Prop :=
  after = before \/ after = applyData d before.

(** Everything a call can do to the print documents of a release, in the
    order it does it: open the interior, fetch its pages from 1 on, open
    the cover, fetch the first page of the cover. *)
Definition inspectionPlan (I : Imports) (c : StoreBookPrintCover) (f : StoreBookPrintFile)
  (interior cover : list PageView) : list Op :=
  let fu := getTableObjectFileUrl I (printFileUuid f) in
  let cu := getTableObjectFileUrl I (printCoverUuid c) in
  GetDocument fu
  :: pageOps (mkPdf fu (Z.of_nat (List.length interior))) 1 (List.length interior)
  ++ [GetDocument cu; GetPage (mkPdf cu (Z.of_nat (List.length cover))) 1].

(** A catalogue for the witnesses: two covers, a file, three categories of
    which the first and the third hold release 7. *)
Definition sampleCatalog : Catalog :=
  {| storeBookCovers := [mkCoverRow 10 "C10" "1:1.5" "LEHV6n"; mkCoverRow 11 "C11" "1:1.6" "LKO2?U"];
     storeBookFiles := [mkFile 12 "F12" (Some "book.epub")];
     categoryTable := [mkCategory 1 "K1" "fantasy" [7; 8];
                       mkCategory 2 "K2" "crime" [8];
                       mkCategory 3 "K3" "adventure" [7]] |}.

(** * Properties *)

(** ** Running programs *)

Lemma run_bind {A B : Type} (m : Prog A) (f : A -> Prog B) (w : World) :
  run (bind m f) w =
  match result (run m w) with
  | inl e => mkOutcome (inl e) (final (run m w)) (trace (run m w))
  | inr a =>
      let o := run (f a) (final (run m w)) in
      mkOutcome (result o) (final o) (trace (run m w) ++ trace o)
  end.
Proof.
  revert w; induction m as [a | e | op k IH]; intro w; cbn [bind run].
  - cbn. destruct (run (f a) w); reflexivity.
  - reflexivity.
  - destruct (handle w op) as [[e | x] w']; cbn; [reflexivity |].
    rewrite IH. destruct (result (run (k x) w')); cbn; [reflexivity |].
    rewrite app_comm_cons. reflexivity.
Qed.

Lemma run_throwValidationError (errors : list (option string)) (w : World) :
  run (throwValidationError errors) w =
  match failures errors with
  | [] => mkOutcome (inr tt) w []
  | e :: es => mkOutcome (inl (ValidationFailed (e :: es))) w []
  end.
Proof. unfold throwValidationError. destruct (failures errors); reflexivity. Qed.

Lemma ReadOnly_bind {A B : Type} (m : Prog A) (f : A -> Prog B) :
  ReadOnly m -> (forall a, ReadOnly (f a)) -> ReadOnly (bind m f).
Proof.
  intros Hm Hf. induction Hm; cbn [bind]; auto using ReadOnly_Throw.
  constructor; auto.
Qed.

Lemma ReadOnly_await (op : Op) : isWrite op = false -> ReadOnly (await op).
Proof. intro H. constructor; [exact H | intro; constructor]. Qed.

Ltac read_only_await :=
  match goal with
  | |- ReadOnly (await ?op) => apply (@ReadOnly_await op); reflexivity
  end.

Lemma ReadOnly_throwValidationError errors : ReadOnly (throwValidationError errors).
Proof. unfold throwValidationError. destruct (failures errors); constructor. Qed.

Lemma handle_read (w : World) (op : Op) : isWrite op = false -> snd (handle w op) = w.
Proof.
  destruct op; cbn; intro H; try reflexivity; try discriminate.
  - destruct (lookupAsset (assets w) url); reflexivity.
  - destruct (getPageView w pdf pageNumber); reflexivity.
Qed.

(** A read-only program leaves the world as it found it and attempts no
    write. *)
Lemma ReadOnly_run {A : Type} (p : Prog A) (w : World) :
  ReadOnly p -> final (run p w) = w /\ writes (trace (run p w)) = [].
Proof.
  intro H. induction H as [a | e | op k Hop Hk IH]; cbn [run]; auto.
  pose proof (handle_read w op Hop) as Hw.
  destruct (handle w op) as [[e | x] w']; cbn in Hw; subst w'; cbn.
  - unfold writes; cbn. rewrite Hop. auto.
  - destruct (IH x) as [F W]. unfold writes in *; cbn. rewrite Hop. auto.
Qed.

(** ** The print block *)

Lemma getPageView_nth (w : World) (pdf : PDFDocumentProxy) (pre rest : list PageView) (v : PageView) :
  lookupAsset (assets w) (pdfUrl pdf) = Some (pre ++ v :: rest) ->
  getPageView w pdf (Z.of_nat (List.length pre) + 1) = Some v.
Proof.
  intro H. unfold getPageView. rewrite H.
  replace (1 <=? Z.of_nat (List.length pre) + 1) with true by (symmetry; apply Z.leb_le; lia).
  replace (Z.of_nat (List.length pre) + 1 - 1) with (Z.of_nat (List.length pre)) by lia.
  rewrite Nat2Z.id, nth_error_app2 by lia.
  rewrite Nat.sub_diag. reflexivity.
Qed.

(** The loop over the interior pages stops at the first page whose size is
    refused, and otherwise fetches and checks every remaining page. *)
Lemma run_validatePrintFilePageSizes (I : Imports) (w : World) (pdf : PDFDocumentProxy)
  (rest pre : list PageView) :
  lookupAsset (assets w) (pdfUrl pdf) = Some (pre ++ rest) ->
  run (validatePrintFilePageSizes I pdf (Z.of_nat (List.length pre) + 1) (List.length rest)) w =
  match firstBadPage (validation I) rest with
  | Some (k, m) =>
      mkOutcome (inl (ValidationFailed [m])) w
        (pageOps pdf (Z.of_nat (List.length pre) + 1) (S k))
  | None =>
      mkOutcome (inr tt) w (pageOps pdf (Z.of_nat (List.length pre) + 1) (List.length rest))
  end.
Proof.
  revert pre. induction rest as [| v rest IH]; intros pre H; [reflexivity |].
  cbn [List.length validatePrintFilePageSizes firstBadPage pageOps].
  unfold getPage, await. cbn [bind run handle].
  rewrite (getPageView_nth w pdf pre rest v H).
  destruct v as [[[x y] pw] ph]. cbn [sizeError].
  rewrite run_bind, run_throwValidationError. cbn [failures].
  destruct (validateStoreBookPrintFilePageSize (validation I) pw ph) as [m |]; [reflexivity |].
  cbn [result final trace].
  specialize (IH (pre ++ [(x, y, pw, ph)])).
  rewrite <- app_assoc in IH. specialize (IH H).
  rewrite length_app in IH. cbn [List.length] in IH.
  replace (Z.of_nat (List.length pre + 1) + 1) with (Z.of_nat (List.length pre) + 1 + 1) in IH by lia.
  rewrite IH.
  destruct (firstBadPage (validation I) rest) as [[k m] |]; reflexivity.
Qed.

Lemma run_validatePrintAssets (I : Imports) (w : World)
  (c : StoreBookPrintCover) (f : StoreBookPrintFile) :
  run (validatePrintAssets I c f) w = inspectPrintAssets I w c f.
Proof.
  unfold validatePrintAssets, inspectPrintAssets, getDocument, getPage, await.
  cbn [bind run handle].
  destruct (lookupAsset (assets w) (getTableObjectFileUrl I (printFileUuid f))) as [fp |] eqn:Hf;
    [| reflexivity].
  cbn [numPages].
  rewrite run_bind, run_throwValidationError. cbn [failures].
  destruct (validateStoreBookPrintFilePages (validation I) (Z.of_nat (List.length fp))) as [m |];
    [reflexivity |].
  cbn [result final trace app].
  rewrite run_bind, Nat2Z.id.
  pose proof (run_validatePrintFilePageSizes I w
    (mkPdf (getTableObjectFileUrl I (printFileUuid f)) (Z.of_nat (List.length fp))) fp [] Hf) as L.
  cbn [List.length Z.of_nat Z.add] in L. rewrite L. clear L.
  destruct (firstBadPage (validation I) fp) as [[k m] |]; [reflexivity |].
  cbn [result final trace bind run handle].
  destruct (lookupAsset (assets w) (getTableObjectFileUrl I (printCoverUuid c))) as [cp |] eqn:Hc;
    [| reflexivity].
  cbn [numPages result final trace].
  rewrite run_bind, run_throwValidationError. cbn [failures].
  destruct (validateStoreBookPrintCoverPages (validation I) (Z.of_nat (List.length cp))) as [m |];
    [reflexivity |].
  cbn [result final trace app bind run handle].
  unfold getPageView. cbn [pdfUrl]. rewrite Hc.
  destruct cp as [| [[[x y] cw] ch] cp']; [cbn; rewrite <- app_assoc; reflexivity |].
  change (1 <=? 1) with true. change (Z.to_nat (1 - 1)) with 0%nat.
  cbn [nth_error]. rewrite run_throwValidationError. cbn [failures].
  destruct (validateStoreBookPrintCoverPageSize (validation I) cw ch (Z.of_nat (List.length fp)));
    cbn; rewrite <- app_assoc; reflexivity.
Qed.

Lemma inspectPrintAssets_final I w c f : final (inspectPrintAssets I w c f) = w.
Proof.
  unfold inspectPrintAssets.
  repeat match goal with
         | |- context [match ?x with _ => _ end] => destruct x
         end; reflexivity.
Qed.

Lemma inspectRelease_final I w r : final (inspectRelease I w r) = w.
Proof.
  unfold inspectRelease. destruct (printCover r), (printFile r); auto using inspectPrintAssets_final.
Qed.

Lemma writes_app t1 t2 : writes (t1 ++ t2) = writes t1 ++ writes t2.
Proof. apply filter_app. Qed.

Lemma inspections_app t1 t2 : inspections (t1 ++ t2) = inspections t1 ++ inspections t2.
Proof. apply filter_app. Qed.

Lemma writes_pageOps pdf i n : writes (pageOps pdf i n) = [].
Proof. revert i; induction n; intro i; cbn; auto. Qed.

Lemma inspectPrintAssets_writes I w c f : writes (trace (inspectPrintAssets I w c f)) = [].
Proof.
  unfold inspectPrintAssets.
  repeat match goal with
         | |- context [match ?x with _ => _ end] => destruct x
         end; cbn [trace];
  repeat (rewrite ?writes_app, ?writes_pageOps; cbn); try reflexivity;
  change (GetPage ?p 1 :: pageOps ?p (1 + 1) ?n) with (pageOps p 1 (S n));
  rewrite ?writes_pageOps; reflexivity.
Qed.

Lemma inspectRelease_writes I w r : writes (trace (inspectRelease I w r)) = [].
Proof.
  unfold inspectRelease. destruct (printCover r), (printFile r); auto using inspectPrintAssets_writes.
Qed.

(** The outcome of lines 95-154. *)
Lemma run_validateAndUpdate (I : Imports) (w : World) (args : PublishArgs) (r : StoreBookRelease) :
  run (validateAndUpdate I args r) w =
  match failures (argErrors I args) with
  | e :: es => mkOutcome (inl (ValidationFailed (e :: es))) w []
  | [] =>
      let o := inspectRelease I w r in
      let d := publishData args (clock w) in
      match result o with
      | inl e => mkOutcome (inl e) w (trace o)
      | inr _ =>
          match find (fun r' => id r' =? id r) (storeBookReleases w) with
          | Some r' =>
              mkOutcome (inr (Some (applyData d r')))
                (setReleases w (updateRows (id r) d (storeBookReleases w)))
                (trace o ++ [NewDate; UpdateRelease (id r) d])
          | None =>
              mkOutcome (inl (Rejected "update")) w
                (trace o ++ [NewDate; UpdateRelease (id r) d])
          end
      end
  end.
Proof.
  unfold validateAndUpdate.
  rewrite run_bind, run_throwValidationError.
  destruct (failures (argErrors I args)); [| reflexivity].
  cbn [result final trace app]. rewrite run_bind.
  assert (E : run match printCover r with
                  | Some c => match printFile r with
                              | Some f => validatePrintAssets I c f
                              | None => Ret tt
                              end
                  | None => Ret tt
                  end w = inspectRelease I w r).
  { unfold inspectRelease. destruct (printCover r), (printFile r);
      auto using run_validatePrintAssets. }
  rewrite E. clear E. cbv zeta.
  pose proof (inspectRelease_final I w r) as F.
  destruct (inspectRelease I w r) as [res fin tr]. cbn [result final trace] in *. subst fin.
  destruct res as [e | []]; [reflexivity |].
  unfold newDate, storeBookRelease_update, await. cbn [bind run handle].
  destruct (find (fun r' => id r' =? id r) (storeBookReleases w)); reflexivity.
Qed.

(** ** The checks before validation *)

Lemma publish_reaches (I : Imports) (w : World) (args : PublishArgs) (context : ResolverContext)
  (u : string) (caller : User) (r : StoreBookRelease) (b : StoreBook) :
  Reaches I w args context u caller r b ->
  run (publishStoreBookRelease I args context) w =
  let o := run (validateAndUpdate I args r) w in
  mkOutcome (result o) (final o)
    (FindFirstRelease u :: FindFirstStoreBook (storeBookId r) :: trace o).
Proof.
  intros (Hu & Hc & Hr & Ha & Hs & Hb & He).
  unfold publishStoreBookRelease, storeBookRelease_findFirst, storeBook_findFirst, await.
  rewrite Hu, Hc. cbn [bind run handle]. rewrite Hr.
  unfold authorized in Ha. rewrite <- negb_orb, Ha. cbn [negb].
  rewrite Hs. cbn [bind run handle]. rewrite Hb.
  unfold eligible in He. rewrite <- negb_orb, He. cbn [negb].
  reflexivity.
Qed.

(** A call that does not get to validation ends where it started: nothing
    was written, no document was opened, and it did not succeed. *)
Lemma publish_stopped_early (I : Imports) (w : World) (args : PublishArgs)
  (context : ResolverContext) :
  (exists u caller r b, Reaches I w args context u caller r b) \/
  (final (run (publishStoreBookRelease I args context) w) = w /\
   writes (trace (run (publishStoreBookRelease I args context) w)) = [] /\
   inspections (trace (run (publishStoreBookRelease I args context) w)) = [] /\
   forall x, result (run (publishStoreBookRelease I args context) w) <> inr (Some x)).
Proof.
  unfold publishStoreBookRelease, storeBookRelease_findFirst, storeBook_findFirst, await.
  destruct (argUuid args) as [u |] eqn:Hu; [| right; cbn; repeat split; discriminate].
  destruct (user context) as [caller |] eqn:Hc; [| right; cbn; repeat split; discriminate].
  cbn [bind run handle].
  destruct (findFirstRelease w u) as [r |] eqn:Hr; [| right; cbn; repeat split; discriminate].
  destruct (negb (existsb (Z.eqb (userIdent caller)) (admins I))
            && negb (userId r =? userIdent caller)) eqn:Ha;
    [right; cbn; repeat split; discriminate |].
  destruct (looseEq (status r) "published") eqn:Hs;
    [right; cbn; repeat split; discriminate |].
  cbn [bind run handle].
  destruct (findFirstStoreBook w (storeBookId r)) as [b |] eqn:Hb;
    [| right; cbn; repeat split; discriminate].
  destruct (negb (looseEq (bookStatus b) "published")
            && negb (looseEq (bookStatus b) "hidden")) eqn:He;
    [right; cbn; repeat split; discriminate |].
  left. exists u, caller, r, b. unfold Reaches, authorized, eligible.
  rewrite <- negb_orb in Ha, He. apply negb_false_iff in Ha, He. auto 10.
Qed.

Lemma find_some_id (rows : list StoreBookRelease) (q : StoreBookRelease -> bool) (r : StoreBookRelease) :
  find q rows = Some r ->
  exists r', find (fun x => id x =? id r) rows = Some r'.
Proof.
  intro H. apply find_some in H. destruct H as [Hin _].
  destruct (find (fun x => id x =? id r) rows) eqn:E; [eauto |].
  exfalso. apply (find_none _ _ E) in Hin. rewrite Z.eqb_refl in Hin. discriminate.
Qed.

(** With [id] a primary key, the row found by its [id] is the row itself. *)
Lemma find_by_id (rows : list StoreBookRelease) (r : StoreBookRelease) :
  NoDup (map id rows) -> In r rows ->
  find (fun x => id x =? id r) rows = Some r.
Proof.
  induction rows as [| a rows IH]; intros ND Hin; [contradiction |].
  cbn [map] in ND. inversion ND as [| ? ? Hnot ND']; subst.
  cbn [find]. destruct Hin as [-> | Hin].
  - rewrite Z.eqb_refl. reflexivity.
  - destruct (id a =? id r) eqn:E; [| auto].
    apply Z.eqb_eq in E. exfalso. apply Hnot. rewrite E. apply in_map. exact Hin.
Qed.

(** ** Retrieval *)

(** C10: [retrieveStoreBookRelease] on a uuid that matches no stored release
    ends in the runtime error of reading [status] of [null]; it returns a
    release, with a missing status read as ["unpublished"], exactly when a
    matching release exists.  Nothing is written either way. *)
Theorem retrieve_missing_release_raises (w : World) (u : string) :
  let o := run (retrieveStoreBookRelease (Some u)) w in
  final o = w /\
  match findFirstRelease w u with
  | None => result o = inl (TypeError "status")
  | Some r =>
      result o = inr (Some (withDefaultStatus r)) /\
      status (withDefaultStatus r) = Some (effectiveStatus r)
  end.
Proof.
  unfold retrieveStoreBookRelease, storeBookRelease_findFirst, await.
  cbn [bind run handle].
  destruct (findFirstRelease w u) as [r |]; cbn; [| auto].
  repeat split. unfold effectiveStatus. destruct (status r); reflexivity.
Qed.

(** ** Order of the early checks *)

(** C9, as stated, fails for the caller without identity: the test of
    [context.user] comes before the release is loaded. *)
Lemma anonymous_missing_release_not_authenticated :
  ~ missingReleaseIsNotFound sampleImports digitalWorld
      (mkArgs (Some "nope") "First Edition" Null) anonymous.
Proof.
  intro H. specialize (H "nope" eq_refl eq_refl). vm_compute in H. discriminate.
Qed.

(** C9, amended: for a caller with an identity, whichever it is, a missing
    release is reported as [storeBookReleaseDoesNotExist] right after the
    lookup and before ownership is looked at; a caller without identity is
    turned away with [notAuthenticated] before anything is loaded. *)
Theorem missing_release_after_authentication (I : Imports) (w : World) (args : PublishArgs)
  (context : ResolverContext) (u : string) :
  argUuid args = Some u ->
  findFirstRelease w u = None ->
  run (publishStoreBookRelease I args context) w =
  match user context with
  | Some _ => mkOutcome (inl (ApiErr storeBookReleaseDoesNotExist)) w [FindFirstRelease u]
  | None => mkOutcome (inl (ApiErr notAuthenticated)) w []
  end.
Proof.
  intros Hu Hr.
  unfold publishStoreBookRelease, storeBookRelease_findFirst, await. rewrite Hu.
  destruct (user context); [| reflexivity].
  cbn [bind run handle]. rewrite Hr. reflexivity.
Qed.

Lemma missing_release_after_authentication_witness :
  argUuid (mkArgs (Some "nope") "First Edition" Null) = Some "nope" /\
  findFirstRelease digitalWorld "nope" = None /\
  run (publishStoreBookRelease sampleImports (mkArgs (Some "nope") "First Edition" Null) stranger)
    digitalWorld
  = mkOutcome (inl (ApiErr storeBookReleaseDoesNotExist)) digitalWorld [FindFirstRelease "nope"].
Proof.
  split; [reflexivity |]. split; [reflexivity |].
  exact (missing_release_after_authentication sampleImports digitalWorld
           (mkArgs (Some "nope") "First Edition" Null) stranger eq_refl eq_refl).
Defined.

(** ** The state checks *)

(** C3: a release whose status is not unpublished makes an authorized
    publish call fail with [storeBookReleaseAlreadyPublished]; nothing is
    written and the store is as before. *)
Theorem published_release_is_rejected (I : Imports) (w : World) (args : PublishArgs)
  (context : ResolverContext) (u : string) (caller : User) (r : StoreBookRelease) :
  argUuid args = Some u ->
  user context = Some caller ->
  findFirstRelease w u = Some r ->
  authorized I caller r = true ->
  statusInModel r ->
  effectiveStatus r <> "unpublished" ->
  let o := run (publishStoreBookRelease I args context) w in
  result o = inl (ApiErr storeBookReleaseAlreadyPublished) /\
  final o = w /\
  writes (trace o) = [].
Proof.
  intros Hu Hc Hr Ha Hm Hs.
  assert (P : status r = Some "published").
  { unfold effectiveStatus in Hs.
    destruct Hm as [E | [E | E]]; rewrite E in Hs; try contradiction; exact E. }
  unfold publishStoreBookRelease, storeBookRelease_findFirst, await.
  rewrite Hu, Hc. cbn [bind run handle]. rewrite Hr.
  unfold authorized in Ha. rewrite <- negb_orb, Ha. cbn [negb].
  rewrite P. cbn. auto.
Qed.

Lemma published_release_is_rejected_witness :
  let r := applyData (publishData firstEdition 1600000000) sampleRelease in
  let o := run (publishStoreBookRelease sampleImports firstEdition owner) publishedWorld in
  (findFirstRelease publishedWorld "R1" = Some r /\
   authorized sampleImports (mkUser 42) r = true /\
   statusInModel r /\
   effectiveStatus r <> "unpublished") /\
  result o = inl (ApiErr storeBookReleaseAlreadyPublished) /\
  final o = publishedWorld /\
  writes (trace o) = [].
Proof.
  assert (S : statusInModel (applyData (publishData firstEdition 1600000000) sampleRelease))
    by (right; right; reflexivity).
  assert (N : effectiveStatus (applyData (publishData firstEdition 1600000000) sampleRelease)
              <> "unpublished") by (vm_compute; discriminate).
  split; [repeat split; auto |].
  exact (published_release_is_rejected sampleImports publishedWorld firstEdition owner
           eq_refl eq_refl eq_refl eq_refl S N).
Defined.

(** C7: when the parent book is neither published nor hidden, the call
    ends in [storeBookNotPublished]; no print document is opened and
    nothing is written, whatever the release and the arguments look like. *)
Theorem parent_not_published_blocks (I : Imports) (w : World) (args : PublishArgs)
  (context : ResolverContext) (u : string) (caller : User) (r : StoreBookRelease)
  (b : StoreBook) :
  argUuid args = Some u ->
  user context = Some caller ->
  findFirstRelease w u = Some r ->
  authorized I caller r = true ->
  status r <> Some "published" ->
  findFirstStoreBook w (storeBookId r) = Some b ->
  bookStatus b <> Some "published" ->
  bookStatus b <> Some "hidden" ->
  let o := run (publishStoreBookRelease I args context) w in
  result o = inl (ApiErr storeBookNotPublished) /\
  inspections (trace o) = [] /\
  writes (trace o) = [] /\
  final o = w.
Proof.
  intros Hu Hc Hr Ha Hs Hb Hp Hh.
  assert (L : forall s lit, s <> Some lit -> looseEq s lit = false).
  { intros [s |] lit N; cbn; [| reflexivity].
    destruct (String.eqb_spec s lit); [congruence | reflexivity]. }
  unfold publishStoreBookRelease, storeBookRelease_findFirst, storeBook_findFirst, await.
  rewrite Hu, Hc. cbn [bind run handle]. rewrite Hr.
  unfold authorized in Ha. rewrite <- negb_orb, Ha. cbn [negb].
  rewrite (L _ _ Hs). cbn [bind run handle]. rewrite Hb.
  rewrite (L _ _ Hp), (L _ _ Hh). cbn. auto.
Qed.

Lemma parent_not_published_blocks_witness :
  let o := run (publishStoreBookRelease sampleImports firstEdition owner) reviewWorld in
  (findFirstRelease reviewWorld "R1" = Some (withPrint sampleRelease) /\
   findFirstStoreBook reviewWorld 3 = Some (mkStoreBook 3 (Some "review"))) /\
  result o = inl (ApiErr storeBookNotPublished) /\
  inspections (trace o) = [] /\
  writes (trace o) = [] /\
  final o = reviewWorld.
Proof.
  split; [split; reflexivity |].
  apply (@parent_not_published_blocks sampleImports reviewWorld firstEdition owner
           "R1" (mkUser 42) (withPrint sampleRelease) (mkStoreBook 3 (Some "review")));
    try reflexivity; cbn; discriminate.
Defined.

(** C8: the parent book is read without a test that it was found.  When
    the release points to no stored book, the call ends in the runtime
    error of reading [status] of [null], not in a business error. *)
Theorem missing_parent_raises (I : Imports) (w : World) (args : PublishArgs)
  (context : ResolverContext) (u : string) (caller : User) (r : StoreBookRelease) :
  argUuid args = Some u ->
  user context = Some caller ->
  findFirstRelease w u = Some r ->
  authorized I caller r = true ->
  looseEq (status r) "published" = false ->
  findFirstStoreBook w (storeBookId r) = None ->
  run (publishStoreBookRelease I args context) w =
  mkOutcome (inl (TypeError "status")) w
    [FindFirstRelease u; FindFirstStoreBook (storeBookId r)].
Proof.
  intros Hu Hc Hr Ha Hs Hb.
  unfold publishStoreBookRelease, storeBookRelease_findFirst, storeBook_findFirst, await.
  rewrite Hu, Hc. cbn [bind run handle]. rewrite Hr.
  unfold authorized in Ha. rewrite <- negb_orb, Ha. cbn [negb].
  rewrite Hs. cbn [bind run handle]. rewrite Hb. reflexivity.
Qed.

Lemma missing_parent_raises_witness :
  findFirstStoreBook orphanWorld (storeBookId sampleRelease) = None /\
  run (publishStoreBookRelease sampleImports firstEdition owner) orphanWorld =
  mkOutcome (inl (TypeError "status")) orphanWorld
    [FindFirstRelease "R1"; FindFirstStoreBook 3].
Proof.
  split; [reflexivity |].
  exact (@missing_parent_raises sampleImports orphanWorld firstEdition owner
           "R1" (mkUser 42) sampleRelease eq_refl eq_refl eq_refl eq_refl eq_refl eq_refl).
Defined.

(** ** Validity of the print assets *)

Lemma firstBadPage_none (V : ValidationService) (views : list PageView) :
  firstBadPage V views = None <-> Forall (fun v => sizeError V v = None) views.
Proof.
  induction views as [| v views IH]; cbn [firstBadPage].
  - split; auto.
  - destruct (sizeError V v) eqn:E.
    + split; [discriminate |]. intro H. inversion H; congruence.
    + destruct (firstBadPage V views) as [[k m] |].
      * split; [discriminate |]. intro H. inversion H; subst.
        destruct IH as [_ IH]. specialize (IH ltac:(assumption)). discriminate.
      * split; auto. intros _. constructor; [exact E | apply IH; reflexivity].
Qed.

Lemma firstBadPage_some (V : ValidationService) (views : list PageView) (k : nat) (m : string) :
  firstBadPage V views = Some (k, m) ->
  exists v, nth_error views k = Some v /\ sizeError V v = Some m.
Proof.
  revert k. induction views as [| v views IH]; intro k; cbn [firstBadPage]; [discriminate |].
  destruct (sizeError V v) eqn:E.
  - intro H. inversion H; subst. exists v. auto.
  - destruct (firstBadPage V views) as [[k' m'] |]; [| discriminate].
    intro H. inversion H; subst. destruct (IH k' eq_refl) as (v' & N & S'). exists v'. auto.
Qed.

Lemma printAssetsValid_inspect (I : Imports) (w : World) (r : StoreBookRelease) :
  printAssetsValid I w r <-> result (inspectRelease I w r) = inr tt.
Proof.
  unfold printAssetsValid, inspectRelease.
  destruct (printCover r) as [c |]; [| tauto].
  destruct (printFile r) as [f |]; [| tauto].
  unfold inspectPrintAssets. split.
  - intros (fp & x & y & cw & ch & cp' & Hf & Hc & H1 & H2 & H3 & H4).
    cbv zeta. rewrite Hf, H1. apply firstBadPage_none in H2. rewrite H2, Hc.
    unfold PageView in *. rewrite H3, H4. reflexivity.
  - destruct (lookupAsset (assets w) (getTableObjectFileUrl I (printFileUuid f))) as [fp |];
      [| discriminate].
    destruct (validateStoreBookPrintFilePages (validation I) (Z.of_nat (List.length fp))) eqn:H1;
      [discriminate |].
    destruct (firstBadPage (validation I) fp) as [[k m] |] eqn:H2; [discriminate |].
    destruct (lookupAsset (assets w) (getTableObjectFileUrl I (printCoverUuid c))) as [cp |];
      [| discriminate].
    destruct (validateStoreBookPrintCoverPages (validation I) (Z.of_nat (List.length cp))) eqn:H3;
      [discriminate |].
    destruct cp as [| [[[x y] cw] ch] cp']; [discriminate |].
    destruct (validateStoreBookPrintCoverPageSize (validation I) cw ch
                (Z.of_nat (List.length fp))) eqn:H4; [discriminate |].
    intros _. exists fp, x, y, cw, ch, cp'. apply firstBadPage_none in H2. auto 10.
Qed.

Lemma updateRows_map (i : Z) (d : UpdateData) (rows : list StoreBookRelease) :
  NoDup (map id rows) ->
  updateRows i d rows = map (fun x => if id x =? i then applyData d x else x) rows.
Proof.
  induction rows as [| a rows IH]; intro ND; [reflexivity |].
  cbn [map] in ND. inversion ND as [| ? ? Hnot ND']; subst.
  cbn [updateRows map]. destruct (id a =? i) eqn:E.
  - f_equal. apply Z.eqb_eq in E. subst i.
    rewrite <- (map_id rows) at 1. apply map_ext_in. intros x Hx.
    destruct (id x =? id a) eqn:E'; [| reflexivity].
    apply Z.eqb_eq in E'. exfalso. apply Hnot. rewrite <- E'. apply in_map. exact Hx.
  - f_equal. auto.
Qed.

(** ** The write *)

(** C4: a call that passes authorization, the already-published check, the
    parent-status check and every validation stage performs exactly one
    write; it sets [status], [releaseName], [releaseNotes] and [publishedAt]
    of the release from the request and the clock and leaves every other
    field, every other row and the other tables alone.  A call that ends
    in an error has written nothing. *)
Theorem publish_writes_exactly_once (I : Imports) (w : World) (args : PublishArgs)
  (context : ResolverContext) :
  let o := run (publishStoreBookRelease I args context) w in
  (forall e, result o = inl e -> writes (trace o) = [] /\ final o = w) /\
  (forall u caller r b,
     Reaches I w args context u caller r b ->
     failures (argErrors I args) = [] ->
     printAssetsValid I w r ->
     NoDup (map id (storeBookReleases w)) ->
     let d := publishData args (clock w) in
     let r' := applyData d r in
     result o = inr (Some r') /\
     writes (trace o) = [UpdateRelease (id r) d] /\
     storeBookReleases (final o)
     = map (fun x => if id x =? id r then applyData d x else x) (storeBookReleases w) /\
     storeBooks (final o) = storeBooks w /\
     assets (final o) = assets w /\
     status r' = Some "published" /\
     releaseName r' = argReleaseName args /\
     releaseNotes r' = match argReleaseNotes args with
                       | Undefined => releaseNotes r
                       | Null => None
                       | Value notes => Some notes
                       end /\
     publishedAt r' = Some (clock w) /\
     id r' = id r /\ uuid r' = uuid r /\ userId r' = userId r /\
     storeBookId r' = storeBookId r /\ title r' = title r /\ price r' = price r /\
     coverId r' = coverId r /\ fileId r' = fileId r /\
     printCover r' = printCover r /\ printFile r' = printFile r).
Proof.
  cbv zeta. split.
  - intros e He.
    destruct (publish_stopped_early I w args context)
      as [(u & caller & r & b & R) | (F & W & _)]; [| auto].
    pose proof R as (_ & _ & Hr & _).
    rewrite (publish_reaches R) in *. cbv zeta in *. cbn [result final trace] in *.
    rewrite run_validateAndUpdate in *. cbv zeta in *.
    destruct (failures (argErrors I args)); [| cbn; auto].
    pose proof (inspectRelease_writes I w r) as IW.
    destruct (result (inspectRelease I w r)) as [e' | []].
    + cbn [trace final]. unfold writes in *. cbn [filter isWrite]. auto.
    + destruct (find_some_id _ _ Hr) as (r' & Hid). rewrite Hid in He. discriminate.
  - intros u caller r b R Herr Hvalid ND.
    pose proof R as (_ & _ & Hr & _).
    rewrite (publish_reaches R). cbv zeta. cbn [result final trace].
    rewrite run_validateAndUpdate, Herr. cbv zeta.
    apply printAssetsValid_inspect in Hvalid. rewrite Hvalid.
    rewrite (@find_by_id _ _ ND (proj1 (find_some _ _ Hr))).
    cbn [result final trace setReleases storeBookReleases storeBooks assets].
    rewrite (@updateRows_map _ _ _ ND).
    assert (W : writes (FindFirstRelease u :: FindFirstStoreBook (storeBookId r)
                  :: trace (inspectRelease I w r)
                     ++ [NewDate; UpdateRelease (id r) (publishData args (clock w))])
                = [UpdateRelease (id r) (publishData args (clock w))]).
    { change (writes (FindFirstRelease u :: FindFirstStoreBook (storeBookId r) :: ?t))
        with (writes t).
      rewrite writes_app, inspectRelease_writes. reflexivity. }
    rewrite W. cbn [applyData publishData status releaseName releaseNotes publishedAt
      id uuid userId storeBookId title price coverId fileId printCover printFile
      dataStatus dataReleaseName dataReleaseNotes dataPublishedAt applyNotes].
    repeat split.
Qed.

Lemma publish_writes_exactly_once_witness :
  let w := printWorld 24 900 in
  let o := run (publishStoreBookRelease sampleImports firstEdition owner) w in
  (Reaches sampleImports w firstEdition owner "R1" (mkUser 42) (withPrint sampleRelease)
     (mkStoreBook 3 (Some "published")) /\
   failures (argErrors sampleImports firstEdition) = [] /\
   printAssetsValid sampleImports w (withPrint sampleRelease) /\
   NoDup (map id (storeBookReleases w))) /\
  result o = inr (Some (applyData (publishData firstEdition 1700000000) (withPrint sampleRelease))) /\
  writes (trace o) = [UpdateRelease 7 (publishData firstEdition 1700000000)].
Proof.
  assert (R : Reaches sampleImports (printWorld 24 900) firstEdition owner "R1" (mkUser 42)
                (withPrint sampleRelease) (mkStoreBook 3 (Some "published")))
    by (repeat split).
  assert (E : failures (argErrors sampleImports firstEdition) = []) by reflexivity.
  assert (P : printAssetsValid sampleImports (printWorld 24 900) (withPrint sampleRelease)).
  { exists (repeat interiorPage 24), 0%Q, 0%Q, 900%Q, 648%Q, [].
    repeat split; try reflexivity. apply Forall_forall. intros v Hv.
    apply repeat_spec in Hv. subst v. reflexivity. }
  assert (N : NoDup (map id (storeBookReleases (printWorld 24 900)))).
  { cbn. constructor; [cbn; intros [H | []]; discriminate |].
    constructor; [intros [] | constructor]. }
  split; [auto |].
  destruct (publish_writes_exactly_once sampleImports (printWorld 24 900) firstEdition owner)
    as [_ H].
  destruct (H "R1" (mkUser 42) (withPrint sampleRelease) (mkStoreBook 3 (Some "published"))
              R E P N) as (H1 & H2 & _).
  split; [exact H1 | exact H2].
Defined.

(** ** The print stage *)

Lemma inspectPrintAssets_opens (I : Imports) (w : World) (c : StoreBookPrintCover)
  (f : StoreBookPrintFile) :
  exists t, trace (inspectPrintAssets I w c f)
            = GetDocument (getTableObjectFileUrl I (printFileUuid f)) :: t.
Proof.
  unfold inspectPrintAssets.
  repeat match goal with
         | |- context [match ?x with _ => _ end] => destruct x
         end; cbn [trace app]; eauto.
Qed.

Lemma In_pageOps (pdf : PDFDocumentProxy) (n : nat) (i j : Z) :
  i <= j < i + Z.of_nat n -> In (GetPage pdf j) (pageOps pdf i n).
Proof.
  revert i. induction n as [| n IH]; intros i H; [lia |].
  cbn [pageOps]. destruct (Z.eq_dec i j) as [-> | N]; [left; reflexivity |].
  right. apply IH. lia.
Qed.

(** The failures of the request as lines 96-100 collect them, written
    with the two validators. *)
Lemma argErrors_failures (I : Imports) (args : PublishArgs) :
  failures (argErrors I args)
  = failures [validateReleaseNameLength (validation I) (argReleaseName args);
              match argReleaseNotes args with
              | Value notes => validateReleaseNotesLength (validation I) notes
              | _ => None
              end].
Proof.
  unfold argErrors. cbv zeta.
  destruct (validateReleaseNameLength (validation I) (argReleaseName args)),
    (argReleaseNotes args); reflexivity.
Qed.

Lemma pageOps_are_inspections (pdf : PDFDocumentProxy) (n : nat) (i : Z) (t : list Op) :
  inspections (pageOps pdf i n ++ t) = pageOps pdf i n ++ inspections t.
Proof. revert i. induction n as [| n IH]; intro i; cbn; [| rewrite <- IH]; reflexivity. Qed.

(** The print block on two documents that can be opened: it ends with the
    first failure of the four checks, and without a failure it has gone
    through the whole plan. *)
Lemma inspectPrintAssets_checks (I : Imports) (w : World) (c : StoreBookPrintCover)
  (f : StoreBookPrintFile) (fp : list PageView) (first : PageView) (cp' : list PageView) :
  lookupAsset (assets w) (getTableObjectFileUrl I (printFileUuid f)) = Some fp ->
  lookupAsset (assets w) (getTableObjectFileUrl I (printCoverUuid c)) = Some (first :: cp') ->
  match firstPrintFailure (validation I) fp (first :: cp') with
  | Some m => result (inspectPrintAssets I w c f) = inl (ValidationFailed [m])
  | None =>
      result (inspectPrintAssets I w c f) = inr tt /\
      trace (inspectPrintAssets I w c f) = inspectionPlan I c f fp (first :: cp') /\
      inspections (inspectionPlan I c f fp (first :: cp'))
      = inspectionPlan I c f fp (first :: cp')
  end.
Proof.
  intros Hf Hc. unfold inspectPrintAssets, firstPrintFailure, inspectionPlan. cbv zeta.
  rewrite Hf, Hc.
  destruct (validateStoreBookPrintFilePages (validation I) (Z.of_nat (List.length fp)));
    [reflexivity |].
  destruct (firstBadPage (validation I) fp) as [[k m] |]; [reflexivity |].
  destruct (validateStoreBookPrintCoverPages (validation I)
              (Z.of_nat (List.length (first :: cp')))); [reflexivity |].
  destruct first as [[[x y] cw] ch].
  destruct (validateStoreBookPrintCoverPageSize (validation I) cw ch
              (Z.of_nat (List.length fp))); [reflexivity |].
  cbn [result trace]. split; [reflexivity |]. split.
  - cbn [app]. rewrite <- app_assoc. reflexivity.
  - change (inspections (GetDocument ?u :: ?t)) with (GetDocument u :: inspections t).
    rewrite pageOps_are_inspections. reflexivity.
Qed.

(** C5, as stated, fails for a release with both print assets and a name
    that is refused: the call ends at the validation of the arguments and
    no print document is ever looked at. *)
Lemma refused_name_skips_print_stage :
  ~ printStageRunsIffAttached sampleImports (printWorld 3 900)
      (mkArgs (Some "R1") "" Null) owner.
Proof.
  intro H.
  assert (R : Reaches sampleImports (printWorld 3 900) (mkArgs (Some "R1") "" Null) owner
                "R1" (mkUser 42) (withPrint sampleRelease) (mkStoreBook 3 (Some "published")))
    by (repeat split).
  destruct (H _ _ _ _ R) as [_ H2].
  apply H2; [split; discriminate | reflexivity].
Qed.

(** C5, amended: the print stage is entered only if the release carries
    both a print cover and a print file, and a call that got to validation
    enters it exactly when, besides, the name and notes checks passed: a
    refused name or notes ends the call before the stage, with both assets
    attached too.  Once entered, the stage checks the page count of the
    interior, the size of every interior page, the page count of the cover
    and the size of the cover page, in this order, and the first refusal
    ends the call with nothing written; without a refusal the whole plan of
    document operations has been carried out and the call succeeds.  With
    either asset missing no document is opened, and a call that passes
    authorization, the already-published check, the parent-status check
    and the name and notes checks succeeds. *)
Theorem print_stage_gate (I : Imports) (w : World) (args : PublishArgs)
  (context : ResolverContext) (u : string) (caller : User) (r : StoreBookRelease)
  (b : StoreBook) :
  Reaches I w args context u caller r b ->
  let o := run (publishStoreBookRelease I args context) w in
  let nameError := validateReleaseNameLength (validation I) (argReleaseName args) in
  let notesError := match argReleaseNotes args with
                    | Value notes => validateReleaseNotesLength (validation I) notes
                    | _ => None
                    end in
  (printCover r = None \/ printFile r = None -> inspections (trace o) = []) /\
  (failures [nameError; notesError] <> [] -> inspections (trace o) = []) /\
  (failures [nameError; notesError] = [] ->
   (inspections (trace o) <> [] <-> printCover r <> None /\ printFile r <> None) /\
   (printCover r = None \/ printFile r = None ->
    exists r',
      result o = inr (Some r') /\
      status r' = Some "published" /\
      writes (trace o) = [UpdateRelease (id r) (publishData args (clock w))]) /\
   (forall c f fp first cp',
      printCover r = Some c ->
      printFile r = Some f ->
      lookupAsset (assets w) (getTableObjectFileUrl I (printFileUuid f)) = Some fp ->
      lookupAsset (assets w) (getTableObjectFileUrl I (printCoverUuid c))
      = Some (first :: cp') ->
      match firstPrintFailure (validation I) fp (first :: cp') with
      | Some m =>
          result o = inl (ValidationFailed [m]) /\
          writes (trace o) = [] /\
          final o = w
      | None =>
          inspections (trace o) = inspectionPlan I c f fp (first :: cp') /\
          exists r',
            result o = inr (Some r') /\
            status r' = Some "published" /\
            writes (trace o) = [UpdateRelease (id r) (publishData args (clock w))]
      end)).
Proof.
  intro R. pose proof R as (_ & _ & Hr & _).
  destruct (find_some_id _ _ Hr) as (r0 & Hid).
  cbv zeta. rewrite (publish_reaches R). cbv zeta. cbn [result final trace].
  rewrite run_validateAndUpdate. cbv zeta. rewrite argErrors_failures.
  assert (Skip : printCover r = None \/ printFile r = None ->
                 inspectRelease I w r = mkOutcome (inr tt) w []).
  { unfold inspectRelease. intros [E | E]; rewrite E; [| destruct (printCover r)]; reflexivity. }
  split; [| split].
  - intro H. rewrite (Skip H). cbn [result trace]. rewrite Hid.
    destruct (failures _); reflexivity.
  - intro H. destruct (failures _); [contradiction H; reflexivity | reflexivity].
  - intro Herr. rewrite Herr. split; [| split].
    + split.
      * intro H. destruct (printCover r) eqn:Ec, (printFile r) eqn:Ef;
          try (split; discriminate); exfalso; apply H;
          (rewrite Skip by (rewrite ?Ec, ?Ef; auto)); cbn [result trace]; rewrite Hid;
          reflexivity.
      * intros [Hc Hf]. destruct (printCover r) as [c |] eqn:Ec; [| congruence].
        destruct (printFile r) as [f |] eqn:Ef; [| congruence].
        unfold inspectRelease. rewrite Ec, Ef.
        destruct (inspectPrintAssets_opens I w c f) as (t & Ht).
        destruct (result (inspectPrintAssets I w c f)); [| rewrite Hid];
          cbn [trace]; rewrite Ht; cbn; discriminate.
    + intro H. rewrite (Skip H). cbn [result trace]. rewrite Hid.
      eexists. cbn [result trace]. repeat split.
    + intros c f fp first cp' Ec Ef Hf Hc.
      pose proof (inspectPrintAssets_checks I w c f Hf Hc) as K.
      pose proof (inspectPrintAssets_writes I w c f) as W.
      unfold inspectRelease. rewrite Ec, Ef.
      destruct (firstPrintFailure (validation I) fp (first :: cp')) as [m |].
      * rewrite K. cbn [result trace final]. repeat split. exact W.
      * destruct K as (K1 & K2 & K3). rewrite K1, Hid. cbn [result trace].
        change (inspections (FindFirstRelease u :: FindFirstStoreBook (storeBookId r) :: ?t))
          with (inspections t).
        change (writes (FindFirstRelease u :: FindFirstStoreBook (storeBookId r) :: ?t))
          with (writes t).
        rewrite inspections_app, writes_app, W, K2, K3. cbn [app].
        split; [apply app_nil_r |]. eexists. repeat split.
Qed.

Lemma print_stage_gate_witness :
  let digital := run (publishStoreBookRelease sampleImports firstEdition owner) digitalWorld in
  let print := run (publishStoreBookRelease sampleImports firstEdition owner)
                 (printWorld 24 900) in
  (Reaches sampleImports digitalWorld firstEdition owner "R1" (mkUser 42) sampleRelease
     (mkStoreBook 3 (Some "published")) /\
   Reaches sampleImports (printWorld 24 900) firstEdition owner "R1" (mkUser 42)
     (withPrint sampleRelease) (mkStoreBook 3 (Some "published")) /\
   firstPrintFailure sampleValidation (repeat interiorPage 24) [(0, 0, 900, 648)%Q] = None) /\
  (inspections (trace digital) = [] /\
   exists r',
     result digital = inr (Some r') /\
     status r' = Some "published" /\
     writes (trace digital) = [UpdateRelease 7 (publishData firstEdition 1700000000)]) /\
  (inspections (trace print)
   = inspectionPlan sampleImports (mkPrintCover "PC1") (mkPrintFile "PF1")
       (repeat interiorPage 24) [(0, 0, 900, 648)%Q] /\
   exists r',
     result print = inr (Some r') /\
     status r' = Some "published" /\
     writes (trace print) = [UpdateRelease 7 (publishData firstEdition 1700000000)]).
Proof.
  assert (R : Reaches sampleImports digitalWorld firstEdition owner "R1" (mkUser 42)
                sampleRelease (mkStoreBook 3 (Some "published"))) by (repeat split).
  assert (R' : Reaches sampleImports (printWorld 24 900) firstEdition owner "R1" (mkUser 42)
                 (withPrint sampleRelease) (mkStoreBook 3 (Some "published")))
    by (repeat split).
  assert (N : firstPrintFailure sampleValidation (repeat interiorPage 24)
                [(0, 0, 900, 648)%Q] = None) by reflexivity.
  split; [repeat split; assumption |].
  destruct (print_stage_gate R) as (H1 & _ & H2).
  destruct (H2 eq_refl) as (_ & H3 & _).
  destruct (print_stage_gate R') as (_ & _ & H4).
  destruct (H4 eq_refl) as (_ & _ & H5).
  pose proof (H5 (mkPrintCover "PC1") (mkPrintFile "PF1") (repeat interiorPage 24)
                (0, 0, 900, 648)%Q [] eq_refl eq_refl eq_refl eq_refl) as H6.
  change (firstPrintFailure (validation sampleImports) (repeat interiorPage 24)
            [(0, 0, 900, 648)%Q]) with (@None string) in H6.
  split; [split; [apply H1; left; reflexivity | apply H3; left; reflexivity] | exact H6].
Defined.

(** C6: with both print assets attached, the size check runs over the
    pages of the interior document one after the other, 1 up to the page
    count.  One refused page, wherever it is, makes the call fail with a
    validation error and nothing is written; a call that succeeds has
    fetched every page and every page was accepted.  The cover size check
    receives the page count of the interior document. *)
Theorem every_interior_page_is_checked (I : Imports) (w : World) (args : PublishArgs)
  (context : ResolverContext) (u : string) (caller : User) (r : StoreBookRelease)
  (b : StoreBook) (c : StoreBookPrintCover) (f : StoreBookPrintFile) (fp : list PageView) :
  Reaches I w args context u caller r b ->
  printCover r = Some c ->
  printFile r = Some f ->
  lookupAsset (assets w) (getTableObjectFileUrl I (printFileUuid f)) = Some fp ->
  let o := run (publishStoreBookRelease I args context) w in
  let fpdf := mkPdf (getTableObjectFileUrl I (printFileUuid f)) (Z.of_nat (List.length fp)) in
  (forall n v m,
     nth_error fp n = Some v -> sizeError (validation I) v = Some m ->
     exists l, result o = inl (ValidationFailed l) /\ writes (trace o) = [] /\ final o = w) /\
  (forall k m,
     failures (argErrors I args) = [] ->
     validateStoreBookPrintFilePages (validation I) (numPages fpdf) = None ->
     firstBadPage (validation I) fp = Some (k, m) ->
     result o = inl (ValidationFailed [m]) /\
     inspections (trace o) = GetDocument (pdfUrl fpdf) :: pageOps fpdf 1 (S k)) /\
  (forall x,
     result o = inr x ->
     Forall (fun v => sizeError (validation I) v = None) fp /\
     forall i, 1 <= i <= numPages fpdf -> In (GetPage fpdf i) (trace o)) /\
  (forall x y cw ch cp',
     failures (argErrors I args) = [] ->
     validateStoreBookPrintFilePages (validation I) (numPages fpdf) = None ->
     Forall (fun v => sizeError (validation I) v = None) fp ->
     lookupAsset (assets w) (getTableObjectFileUrl I (printCoverUuid c))
     = Some ((x, y, cw, ch) :: cp') ->
     validateStoreBookPrintCoverPages (validation I) (Z.of_nat (S (List.length cp'))) = None ->
     match validateStoreBookPrintCoverPageSize (validation I) cw ch (numPages fpdf) with
     | Some m => result o = inl (ValidationFailed [m])
     | None => exists r', result o = inr (Some r')
     end).
Proof.
  intros R Ec Ef Hf. pose proof R as (_ & _ & Hr & _).
  destruct (find_some_id _ _ Hr) as (r0 & Hid).
  cbv zeta. rewrite (publish_reaches R). cbv zeta. cbn [result final trace numPages pdfUrl].
  rewrite run_validateAndUpdate. cbv zeta.
  unfold inspectRelease. rewrite Ec, Ef. unfold inspectPrintAssets. cbv zeta. rewrite Hf.
  split; [| split; [| split]].
  - intros n v m Hn Hv.
    destruct (failures (argErrors I args)); [| cbn; eauto].
    destruct (validateStoreBookPrintFilePages (validation I) (Z.of_nat (List.length fp)));
      [cbn; eauto |].
    destruct (firstBadPage (validation I) fp) as [[k m'] |] eqn:Hbad.
    + cbn [result trace final]. eexists. split; [reflexivity |]. split; [| reflexivity].
      change (writes (FindFirstRelease u :: FindFirstStoreBook (storeBookId r)
                :: GetDocument ?x :: ?t)) with (writes t).
      apply writes_pageOps.
    + apply firstBadPage_none in Hbad. rewrite Forall_forall in Hbad.
      specialize (Hbad v (nth_error_In _ _ Hn)). congruence.
  - intros k m Herr Hpages Hbad. rewrite Herr, Hpages, Hbad. cbn [result trace].
    split; [reflexivity |].
    change (inspections (FindFirstRelease u :: FindFirstStoreBook (storeBookId r)
              :: GetDocument ?x :: ?t)) with (GetDocument x :: inspections t).
    f_equal. generalize (S k) 1. induction n as [| n IH]; intro i; cbn; [reflexivity |].
    f_equal. apply IH.
  - intros x Hx.
    destruct (failures (argErrors I args)); [| discriminate].
    destruct (validateStoreBookPrintFilePages (validation I) (Z.of_nat (List.length fp)));
      [discriminate |].
    destruct (firstBadPage (validation I) fp) as [[k m'] |] eqn:Hbad; [discriminate |].
    split; [apply firstBadPage_none; exact Hbad |].
    intros i Hi.
    assert (P : In (GetPage (mkPdf (getTableObjectFileUrl I (printFileUuid f))
                               (Z.of_nat (List.length fp))) i)
                  (pageOps (mkPdf (getTableObjectFileUrl I (printFileUuid f))
                               (Z.of_nat (List.length fp))) 1 (List.length fp)))
      by (apply In_pageOps; lia).
    repeat match goal with
           | |- context [match ?x with _ => _ end] => destruct x
           end; cbn [trace]; cbn [result] in Hx; try discriminate;
      right; right; right; repeat (apply in_or_app; left); exact P.
  - intros x y cw ch cp' Herr Hpages Hall Hc Hcp.
    apply firstBadPage_none in Hall. unfold PageView in *.
    rewrite Herr, Hpages, Hall, Hc. cbn [List.length]. rewrite Hcp.
    destruct (validateStoreBookPrintCoverPageSize (validation I) cw ch
                (Z.of_nat (List.length fp))); cbn [result]; [reflexivity |].
    rewrite Hid. cbn [result]. eauto.
Qed.

Lemma every_interior_page_is_checked_witness :
  let o := run (publishStoreBookRelease sampleImports firstEdition owner) badPageWorld in
  (Reaches sampleImports badPageWorld firstEdition owner "R1" (mkUser 42)
     (withPrint sampleRelease) (mkStoreBook 3 (Some "published")) /\
   nth_error (repeat interiorPage 24 ++ [badPage]) 24 = Some badPage /\
   sizeError sampleValidation badPage = Some "store_book_print_file_page_size_invalid") /\
  exists l, result o = inl (ValidationFailed l) /\ writes (trace o) = [] /\ final o = badPageWorld.
Proof.
  assert (R : Reaches sampleImports badPageWorld firstEdition owner "R1" (mkUser 42)
                (withPrint sampleRelease) (mkStoreBook 3 (Some "published")))
    by (repeat split).
  split; [repeat split; exact R |].
  destruct (@every_interior_page_is_checked sampleImports badPageWorld firstEdition owner
              "R1" (mkUser 42) (withPrint sampleRelease) (mkStoreBook 3 (Some "published"))
              (mkPrintCover "PC1") (mkPrintFile "PF1") (repeat interiorPage 24 ++ [badPage])
              R eq_refl eq_refl eq_refl) as [H _].
  exact (H 24%nat badPage "store_book_print_file_page_size_invalid" eq_refl eq_refl).
Defined.

(** ** Aggregation of validation failures *)

(** C1, as stated, fails for a release with print assets whose name is too
    short and whose interior has 3 pages: the call stops at the name and
    the page count is never looked at. *)
Lemma short_name_hides_page_count :
  ~ reportsEveryFailure sampleImports (printWorld 3 900)
      (mkArgs (Some "R1") "" Null) owner.
Proof.
  intro H.
  assert (R : Reaches sampleImports (printWorld 3 900) (mkArgs (Some "R1") "" Null) owner
                "R1" (mkUser 42) (withPrint sampleRelease) (mkStoreBook 3 (Some "published")))
    by (repeat split).
  specialize (H _ _ _ _ R). vm_compute in H.
  specialize (H ltac:(discriminate)). discriminate.
Qed.

(** C1, amended: the name check and the notes check are both run and their
    failures are reported together in one [ValidationFailed]; no document
    is opened then.  The print checks run only when name and notes pass;
    the first of them that fails ends the call with a [ValidationFailed]
    carrying that one message, which is the first of the failures the
    print stage has, and when none of them fails the call succeeds.
    Nothing is written when a check fails. *)
Theorem validation_failures_reported (I : Imports) (w : World) (args : PublishArgs)
  (context : ResolverContext) (u : string) (caller : User) (r : StoreBookRelease)
  (b : StoreBook) :
  Reaches I w args context u caller r b ->
  let o := run (publishStoreBookRelease I args context) w in
  let nameError := validateReleaseNameLength (validation I) (argReleaseName args) in
  let notesError := match argReleaseNotes args with
                    | Value notes => validateReleaseNotesLength (validation I) notes
                    | _ => None
                    end in
  match failures [nameError; notesError] with
  | e :: es =>
      o = mkOutcome (inl (ValidationFailed (e :: es))) w
            [FindFirstRelease u; FindFirstStoreBook (storeBookId r)]
  | [] =>
      (forall l, result o = inl (ValidationFailed l) ->
       writes (trace o) = [] /\ final o = w /\
       exists m c f,
         l = [m] /\ printCover r = Some c /\ printFile r = Some f /\
         (forall cp,
            lookupAsset (assets w) (getTableObjectFileUrl I (printCoverUuid c)) = Some cp ->
            exists rest, validatePublication I w r args = m :: rest)) /\
      (forall c f fp first cp',
         printCover r = Some c ->
         printFile r = Some f ->
         lookupAsset (assets w) (getTableObjectFileUrl I (printFileUuid f)) = Some fp ->
         lookupAsset (assets w) (getTableObjectFileUrl I (printCoverUuid c))
         = Some (first :: cp') ->
         match firstPrintFailure (validation I) fp (first :: cp') with
         | Some m =>
             result o = inl (ValidationFailed [m]) /\
             writes (trace o) = [] /\
             final o = w
         | None => exists r', result o = inr (Some r')
         end)
  end.
Proof.
  intro R. pose proof R as (_ & _ & Hr & _).
  destruct (find_some_id _ _ Hr) as (r0 & Hid).
  cbv zeta. rewrite (publish_reaches R). cbv zeta. cbn [result final trace].
  rewrite run_validateAndUpdate. cbv zeta.
  unfold validatePublication. rewrite argErrors_failures.
  destruct (failures _) as [| e es]; [| reflexivity].
  split.
  { intros l Hl. cbn [app].
    pose proof (inspectRelease_writes I w r) as IW.
    unfold inspectRelease in *.
    destruct (printCover r) as [c |]; [| cbn in Hl; rewrite Hid in Hl; discriminate].
    destruct (printFile r) as [f |]; [| cbn in Hl; rewrite Hid in Hl; discriminate].
    split; [| split].
    - destruct (result (inspectPrintAssets I w c f)) as [e | []];
        [| rewrite Hid in Hl; discriminate].
      cbn [trace]. exact IW.
    - destruct (result (inspectPrintAssets I w c f)) as [e | []]; [reflexivity |].
      rewrite Hid in Hl. discriminate.
    - unfold printStageFailures, inspectPrintAssets in *. cbv zeta in *.
      destruct (lookupAsset (assets w) (getTableObjectFileUrl I (printFileUuid f))) as [fp |];
        [| discriminate].
      destruct (validateStoreBookPrintFilePages (validation I) (Z.of_nat (List.length fp)))
        as [m |].
      { cbn in Hl. inversion Hl. exists m, c, f. repeat split.
        intros cp Hc. rewrite Hc. cbn [failures]. eauto. }
      destruct (firstBadPage (validation I) fp) as [[k m] |].
      { cbn in Hl. inversion Hl. exists m, c, f. repeat split.
        intros cp Hc. rewrite Hc. cbn [failures option_map snd]. eauto. }
      destruct (lookupAsset (assets w) (getTableObjectFileUrl I (printCoverUuid c))) as [cp |]
        eqn:Hcu; [| discriminate].
      destruct (validateStoreBookPrintCoverPages (validation I) (Z.of_nat (List.length cp)))
        as [m |] eqn:Hcp.
      { cbn in Hl. inversion Hl. exists m, c, f. repeat split.
        intros cp0 Hc. cbn [failures option_map]. eauto. }
      destruct cp as [| [[[x y] cw] ch] cp']; [discriminate |].
      destruct (validateStoreBookPrintCoverPageSize (validation I) cw ch
                  (Z.of_nat (List.length fp))) as [m |] eqn:Hcs.
      { cbn in Hl. inversion Hl. exists m, c, f. repeat split.
        intros cp0 Hc. cbn [failures option_map]. eauto. }
      cbn [result] in Hl. rewrite Hid in Hl. discriminate. }
  intros c f fp first cp' Ec Ef Hf Hc.
  pose proof (inspectPrintAssets_checks I w c f Hf Hc) as K.
  pose proof (inspectPrintAssets_writes I w c f) as W.
  unfold inspectRelease. rewrite Ec, Ef.
  destruct (firstPrintFailure (validation I) fp (first :: cp')) as [m |].
  - rewrite K. cbn [result trace final]. repeat split. exact W.
  - destruct K as (K1 & _). rewrite K1, Hid. cbn [result]. eauto.
Qed.

(** The release with print assets, an interior of 3 pages and a cover that
    is too narrow: two print checks fail, one is reported. *)
Lemma validation_failures_reported_witness :
  let w := printWorld 3 100 in
  let o := run (publishStoreBookRelease sampleImports firstEdition owner) w in
  (Reaches sampleImports w firstEdition owner "R1" (mkUser 42) (withPrint sampleRelease)
     (mkStoreBook 3 (Some "published")) /\
   firstPrintFailure sampleValidation (repeat interiorPage 3) [(0, 0, 100, 648)%Q]
   = Some "store_book_print_file_pages_invalid") /\
  result o = inl (ValidationFailed ["store_book_print_file_pages_invalid"]) /\
  validatePublication sampleImports w (withPrint sampleRelease) firstEdition
  = ["store_book_print_file_pages_invalid"; "store_book_print_cover_page_size_invalid"] /\
  writes (trace o) = [] /\ final o = w.
Proof.
  assert (R : Reaches sampleImports (printWorld 3 100) firstEdition owner "R1" (mkUser 42)
                (withPrint sampleRelease) (mkStoreBook 3 (Some "published")))
    by (repeat split).
  assert (P : firstPrintFailure sampleValidation (repeat interiorPage 3)
                [(0, 0, 100, 648)%Q] = Some "store_book_print_file_pages_invalid")
    by reflexivity.
  pose proof (validation_failures_reported R) as H.
  cbv zeta in H.
  change (failures [validateReleaseNameLength (validation sampleImports)
                      (argReleaseName firstEdition);
                    match argReleaseNotes firstEdition with
                    | Value notes => validateReleaseNotesLength (validation sampleImports) notes
                    | _ => None
                    end]) with (@nil string) in H.
  cbv beta iota in H. destruct H as [_ H].
  pose proof (H (mkPrintCover "PC1") (mkPrintFile "PF1") (repeat interiorPage 3)
                (0, 0, 100, 648)%Q [] eq_refl eq_refl eq_refl eq_refl) as H'.
  change (firstPrintFailure (validation sampleImports) (repeat interiorPage 3)
            [(0, 0, 100, 648)%Q]) with (Some "store_book_print_file_pages_invalid") in H'.
  cbv beta iota in H'. destruct H' as (H1 & H2 & H3).
  split; [split; assumption |]. split; [exact H1 |]. split; [reflexivity |].
  split; [exact H2 | exact H3].
Defined.

(** ** Two calls in flight *)

(** C2, as stated, fails: the release of [digitalWorld] is unpublished and
    valid, and when both calls have read it before either writes, both
    succeed. *)
Lemma both_concurrent_calls_succeed :
  ~ oneSuccessOneConflict sampleImports digitalWorld firstEdition owner secondEdition owner.
Proof.
  intro H.
  remember (interleave raceSchedule (publishStoreBookRelease sampleImports firstEdition owner)
              (publishStoreBookRelease sampleImports secondEdition owner) digitalWorld)
    as out eqn:E.
  destruct out as [[p1 p2] w']. symmetry in E.
  pose proof E as E2. vm_compute in E2. injection E2 as <- <- <-.
  destruct (H _ _ _ _ _ _ E eq_refl eq_refl) as [[_ X] | [X _]]; discriminate.
Qed.

Lemma interleave_app {A : Type} (s1 s2 : list bool) (p1 p2 : Prog A) (w : World) :
  interleave (s1 ++ s2) p1 p2 w =
  let '(p1', p2', w') := interleave s1 p1 p2 w in interleave s2 p1' p2' w'.
Proof.
  revert p1 p2 w. induction s1 as [| t s1 IH]; intros p1 p2 w; [reflexivity |].
  cbn [app interleave]. destruct t.
  - destruct (step p1 w) as [p1' w']. apply IH.
  - destruct (step p2 w) as [p2' w']. apply IH.
Qed.

(** A call can be given turns until all its reads are done; the world is
    still the one it started in. *)
Lemma reads_first {A : Type} (p : Prog A) (w : World) :
  exists n,
    (forall q, interleave (repeat true n) p q w = (advance w p, q, w)) /\
    (forall q, interleave (repeat false n) q p w = (q, advance w p, w)).
Proof.
  induction p as [a | e | op k IH]; try (exists 0%nat; split; reflexivity).
  assert (Read : isWrite op = false ->
                 exists n,
                   (forall q, interleave (repeat true n) (Await op k) q w
                              = (match handle w op with
                                 | (inl e, _) => Throw e
                                 | (inr x, _) => advance w (k x)
                                 end, q, w)) /\
                   (forall q, interleave (repeat false n) q (Await op k) w
                              = (q, match handle w op with
                                    | (inl e, _) => Throw e
                                    | (inr x, _) => advance w (k x)
                                    end, w))).
  { intro Hop. pose proof (handle_read w op Hop) as Hw.
    destruct (handle w op) as [[e | x] w'] eqn:Hh; cbn in Hw; subst w'.
    - exists 1%nat. split; intro q; cbn [repeat interleave step]; rewrite Hh; reflexivity.
    - destruct (IH x) as (n & H1 & H2). exists (S n).
      split; intro q; cbn [repeat interleave step]; rewrite Hh; auto. }
  destruct op; try (apply Read; reflexivity).
  exists 0%nat. split; reflexivity.
Qed.

Lemma advance_bind {A B : Type} (m : Prog A) (f : A -> Prog B) (w : World) :
  ReadOnly m ->
  advance w (bind m f) =
  match result (run m w) with
  | inl e => Throw e
  | inr a => advance w (f a)
  end.
Proof.
  intro H. induction H as [a | e | op k Hop Hk IH]; try reflexivity.
  pose proof (handle_read w op Hop) as Hw.
  assert (E : advance w (bind (Await op k) f) =
              match handle w op with
              | (inl e, _) => Throw e
              | (inr x, _) => advance w (bind (k x) f)
              end).
  { cbn [bind]. destruct op; try reflexivity. discriminate. }
  rewrite E. cbn [run].
  destruct (handle w op) as [[e | x] w']; cbn in Hw; subst w'; [reflexivity |].
  rewrite IH. reflexivity.
Qed.

Lemma ReadOnly_validatePrintFilePageSizes I pdf count i :
  ReadOnly (validatePrintFilePageSizes I pdf i count).
Proof.
  revert i. induction count as [| n IH]; intro i; cbn [validatePrintFilePageSizes];
    [constructor |].
  unfold getPage. apply ReadOnly_bind; [read_only_await |].
  intros [[[x y] pw] ph]. apply ReadOnly_bind; auto using ReadOnly_throwValidationError.
Qed.

Lemma ReadOnly_validatePrintAssets I c f : ReadOnly (validatePrintAssets I c f).
Proof.
  unfold validatePrintAssets, getDocument, getPage.
  apply ReadOnly_bind; [read_only_await | intro fpdf].
  apply ReadOnly_bind; [apply ReadOnly_throwValidationError | intros _].
  apply ReadOnly_bind; [apply ReadOnly_validatePrintFilePageSizes | intros _].
  apply ReadOnly_bind; [read_only_await | intro cpdf].
  apply ReadOnly_bind; [apply ReadOnly_throwValidationError | intros _].
  apply ReadOnly_bind; [read_only_await | intros [[[x y] cw] ch]].
  apply ReadOnly_throwValidationError.
Qed.

(** A call that would succeed has, once its reads are done, nothing left
    but its write: the decision to write was taken on what it read. *)
Lemma advance_publish (I : Imports) (w : World) (args : PublishArgs)
  (context : ResolverContext) (u : string) (caller : User) (r : StoreBookRelease)
  (b : StoreBook) :
  Reaches I w args context u caller r b ->
  failures (argErrors I args) = [] ->
  result (inspectRelease I w r) = inr tt ->
  advance w (publishStoreBookRelease I args context) =
  Await (UpdateRelease (id r) (publishData args (clock w))) (fun x => Ret (Some x)).
Proof.
  intros (Hu & Hc & Hr & Ha & Hs & Hb & He) Herr Hok.
  unfold publishStoreBookRelease, storeBookRelease_findFirst, storeBook_findFirst, await.
  rewrite Hu, Hc. cbn [bind advance handle]. rewrite Hr.
  unfold authorized in Ha. rewrite <- negb_orb, Ha. cbn [negb].
  rewrite Hs. cbn [bind advance handle]. rewrite Hb.
  unfold eligible in He. rewrite <- negb_orb, He. cbn [negb andb].
  unfold validateAndUpdate.
  rewrite advance_bind by apply ReadOnly_throwValidationError.
  rewrite run_throwValidationError, Herr. cbn [result].
  assert (RO : ReadOnly match printCover r with
                        | Some c => match printFile r with
                                    | Some f => validatePrintAssets I c f
                                    | None => Ret tt
                                    end
                        | None => Ret tt
                        end).
  { destruct (printCover r), (printFile r);
      try apply ReadOnly_validatePrintAssets; constructor. }
  rewrite (advance_bind _ _ RO).
  assert (E : run match printCover r with
                  | Some c => match printFile r with
                              | Some f => validatePrintAssets I c f
                              | None => Ret tt
                              end
                  | None => Ret tt
                  end w = inspectRelease I w r).
  { unfold inspectRelease. destruct (printCover r), (printFile r);
      auto using run_validatePrintAssets. }
  rewrite E, Hok. reflexivity.
Qed.

(** What a successful call tells about its input. *)
Lemma publish_success_inv (I : Imports) (w : World) (args : PublishArgs)
  (context : ResolverContext) (x : StoreBookRelease) :
  result (run (publishStoreBookRelease I args context) w) = inr (Some x) ->
  exists u caller r b,
    Reaches I w args context u caller r b /\
    failures (argErrors I args) = [] /\
    result (inspectRelease I w r) = inr tt.
Proof.
  intro H.
  destruct (publish_stopped_early I w args context)
    as [(u & caller & r & b & R) | (_ & _ & _ & N)]; [| elim (N x H)].
  exists u, caller, r, b. split; [exact R |].
  rewrite (publish_reaches R) in H. cbv zeta in H. cbn [result] in H.
  rewrite run_validateAndUpdate in H. cbv zeta in H.
  destruct (failures (argErrors I args)); [| discriminate].
  destruct (result (inspectRelease I w r)) as [e | []]; [discriminate | auto].
Qed.

Lemma find_map (q : StoreBookRelease -> bool) (g : StoreBookRelease -> StoreBookRelease)
  (rows : list StoreBookRelease) :
  (forall x, q (g x) = q x) ->
  find q (map g rows) = option_map g (find q rows).
Proof.
  intro H. induction rows as [| a rows IH]; [reflexivity |].
  cbn [map find]. rewrite H. destruct (q a); [reflexivity | exact IH].
Qed.

(** The rows after a write, seen through a lookup that does not depend on
    the columns the write sets. *)
Lemma find_after_update (q : StoreBookRelease -> bool) (i : Z) (d : UpdateData)
  (rows : list StoreBookRelease) :
  NoDup (map id rows) ->
  (forall x, q (applyData d x) = q x) ->
  find q (updateRows i d rows)
  = option_map (fun x => if id x =? i then applyData d x else x) (find q rows).
Proof.
  intros ND H. rewrite (@updateRows_map _ _ _ ND). apply find_map.
  intro x. destruct (id x =? i); auto.
Qed.

(** The run of a call that passes every check, with [id] a primary key. *)
Lemma publish_success_run (I : Imports) (w : World) (args : PublishArgs)
  (context : ResolverContext) (u : string) (caller : User) (r : StoreBookRelease)
  (b : StoreBook) :
  Reaches I w args context u caller r b ->
  failures (argErrors I args) = [] ->
  result (inspectRelease I w r) = inr tt ->
  NoDup (map id (storeBookReleases w)) ->
  let d := publishData args (clock w) in
  result (run (publishStoreBookRelease I args context) w) = inr (Some (applyData d r)) /\
  final (run (publishStoreBookRelease I args context) w)
  = setReleases w (updateRows (id r) d (storeBookReleases w)).
Proof.
  intros R Herr Hok ND. pose proof R as (_ & _ & Hr & _).
  cbv zeta. rewrite (publish_reaches R). cbv zeta. cbn [result final].
  rewrite run_validateAndUpdate, Herr. cbv zeta. rewrite Hok.
  rewrite (@find_by_id _ _ ND (proj1 (find_some _ _ Hr))). split; reflexivity.
Qed.

Lemma publish_already_published (I : Imports) (w : World) (args : PublishArgs)
  (context : ResolverContext) (u : string) (caller : User) (r : StoreBookRelease) :
  argUuid args = Some u ->
  user context = Some caller ->
  findFirstRelease w u = Some r ->
  authorized I caller r = true ->
  looseEq (status r) "published" = true ->
  run (publishStoreBookRelease I args context) w
  = mkOutcome (inl (ApiErr storeBookReleaseAlreadyPublished)) w [FindFirstRelease u].
Proof.
  intros Hu Hc Hr Ha Hs.
  unfold publishStoreBookRelease, storeBookRelease_findFirst, await.
  rewrite Hu, Hc. cbn [bind run handle]. rewrite Hr.
  unfold authorized in Ha. rewrite <- negb_orb, Ha. cbn [negb].
  rewrite Hs. reflexivity.
Qed.

(** C2, amended: the status is tested once, on the release as it was
    read, and the write is keyed by [id] alone.  Two calls on an
    unpublished, valid release that run one after the other end in one
    success and one [storeBookReleaseAlreadyPublished]; when both have read
    the release before either writes, both succeed and both write, the
    later write on top of the earlier. *)
Theorem publish_checks_then_writes (I : Imports) (w : World)
  (args1 : PublishArgs) (context1 : ResolverContext)
  (args2 : PublishArgs) (context2 : ResolverContext)
  (u : string) (x1 x2 : StoreBookRelease) :
  argUuid args1 = Some u ->
  argUuid args2 = Some u ->
  NoDup (map id (storeBookReleases w)) ->
  result (run (publishStoreBookRelease I args1 context1) w) = inr (Some x1) ->
  result (run (publishStoreBookRelease I args2 context2) w) = inr (Some x2) ->
  let w1 := final (run (publishStoreBookRelease I args1 context1) w) in
  let y2 := applyData (publishData args2 (clock w)) x1 in
  (run (publishStoreBookRelease I args2 context2) w1
   = mkOutcome (inl (ApiErr storeBookReleaseAlreadyPublished)) w1 [FindFirstRelease u]) /\
  (exists schedule w',
     interleave schedule (publishStoreBookRelease I args1 context1)
       (publishStoreBookRelease I args2 context2) w
     = (Ret (Some x1), Ret (Some y2), w') /\
     findFirstRelease w' u = Some y2 /\
     status x1 = Some "published" /\ status y2 = Some "published").
Proof.
  intros Hu1 Hu2 ND H1 H2.
  destruct (publish_success_inv _ _ _ _ H1) as (u1 & caller1 & r & b1 & R1 & E1 & K1).
  destruct (publish_success_inv _ _ _ _ H2) as (u2 & caller2 & r2 & b2 & R2 & E2 & K2).
  pose proof R1 as (Hu1' & _ & Hr1 & _).
  pose proof R2 as (Hu2' & Hc2 & Hr2 & Ha2 & _).
  assert (u1 = u) by congruence. assert (u2 = u) by congruence. subst u1 u2.
  assert (r2 = r) by congruence. subst r2.
  destruct (publish_success_run R1 E1 K1 ND) as [S1 F1].
  destruct (publish_success_run R2 E2 K2 ND) as [S2 _].
  assert (x1 = applyData (publishData args1 (clock w)) r) by congruence. subst x1.
  assert (Hin : In r (storeBookReleases w)) by exact (proj1 (find_some _ _ Hr1)).
  assert (Found : findFirstRelease (setReleases w (updateRows (id r)
                    (publishData args1 (clock w)) (storeBookReleases w))) u
                  = Some (applyData (publishData args1 (clock w)) r)).
  { unfold findFirstRelease in *. cbn [storeBookReleases setReleases].
    rewrite find_after_update by (auto; reflexivity).
    rewrite Hr1. cbn [option_map]. rewrite Z.eqb_refl. reflexivity. }
  cbv zeta. rewrite F1. split.
  - apply (@publish_already_published I _ args2 context2 u caller2 _ Hu2 Hc2 Found);
      [exact Ha2 | reflexivity].
  - destruct (reads_first (publishStoreBookRelease I args1 context1) w) as (n1 & T1 & _).
    destruct (reads_first (publishStoreBookRelease I args2 context2) w) as (n2 & _ & T2).
    exists (repeat true n1 ++ repeat false n2 ++ [true; false]). eexists.
    rewrite interleave_app, T1. cbv beta iota.
    rewrite interleave_app, T2. cbv beta iota.
    rewrite (advance_publish R1 E1 K1), (advance_publish R2 E2 K2).
    cbn [interleave step handle].
    rewrite (@find_by_id _ _ ND Hin).
    cbn [storeBookReleases setReleases].
    rewrite find_after_update by (auto; reflexivity).
    rewrite (@find_by_id _ _ ND Hin). cbn [option_map]. rewrite Z.eqb_refl.
    split; [reflexivity |]. split; [| split; reflexivity].
    unfold findFirstRelease in *. cbn [storeBookReleases setReleases].
    assert (ND1 : NoDup (map id (updateRows (id r) (publishData args1 (clock w))
                                  (storeBookReleases w)))).
    { rewrite (@updateRows_map _ _ _ ND), map_map.
      erewrite map_ext; [exact ND |]. intro a. cbn. destruct (id a =? id r); reflexivity. }
    rewrite (@find_after_update _ _ _ _ ND1) by reflexivity.
    rewrite find_after_update by (auto; reflexivity).
    rewrite Hr1. cbn [option_map applyData id]. rewrite !Z.eqb_refl. reflexivity.
Qed.

Lemma publish_checks_then_writes_witness :
  let P1 := publishStoreBookRelease sampleImports firstEdition owner in
  let P2 := publishStoreBookRelease sampleImports secondEdition operator in
  let x1 := applyData (publishData firstEdition 1700000000) sampleRelease in
  let y2 := applyData (publishData secondEdition 1700000000) x1 in
  (NoDup (map id (storeBookReleases digitalWorld)) /\
   result (run P1 digitalWorld) = inr (Some x1) /\
   result (run P2 digitalWorld)
   = inr (Some (applyData (publishData secondEdition 1700000000) sampleRelease))) /\
  run P2 (final (run P1 digitalWorld))
  = mkOutcome (inl (ApiErr storeBookReleaseAlreadyPublished)) (final (run P1 digitalWorld))
      [FindFirstRelease "R1"] /\
  exists schedule w',
    interleave schedule P1 P2 digitalWorld = (Ret (Some x1), Ret (Some y2), w') /\
    findFirstRelease w' "R1" = Some y2 /\
    status x1 = Some "published" /\ status y2 = Some "published".
Proof.
  assert (N : NoDup (map id (storeBookReleases digitalWorld))).
  { cbn. constructor; [cbn; intros [H | []]; discriminate |].
    constructor; [intros [] | constructor]. }
  split; [repeat split; exact N |].
  exact (@publish_checks_then_writes sampleImports digitalWorld firstEdition owner
           secondEdition operator "R1" _ _ eq_refl eq_refl N eq_refl eq_refl).
Defined.

(** ** The scenarios of the design, evaluated *)

(** The owner publishes the digital-only release. *)
Example scenario_first_edition :
  let o := run (publishStoreBookRelease sampleImports firstEdition owner) digitalWorld in
  result o = inr (Some (applyData (publishData firstEdition 1700000000) sampleRelease)) /\
  findFirstRelease (final o) "R1"
  = Some (applyData (publishData firstEdition 1700000000) sampleRelease) /\
  trace o = [FindFirstRelease "R1"; FindFirstStoreBook 3; NewDate;
             UpdateRelease 7 (publishData firstEdition 1700000000)].
Proof. repeat split. Qed.

(** The same release with print assets and an interior of 3 pages. *)
Example scenario_three_pages :
  let o := run (publishStoreBookRelease sampleImports firstEdition owner) (printWorld 3 900) in
  result o = inl (ValidationFailed ["store_book_print_file_pages_invalid"]) /\
  final o = printWorld 3 900 /\
  writes (trace o) = [].
Proof. repeat split. Qed.

(** A caller who is neither the owner nor an operator: no document is
    opened. *)
Example scenario_stranger :
  let o := run (publishStoreBookRelease sampleImports firstEdition stranger) (printWorld 24 900) in
  result o = inl (ApiErr actionNotAllowed) /\
  trace o = [FindFirstRelease "R1"].
Proof. repeat split. Qed.

(** Publishing twice: success, then [storeBookReleaseAlreadyPublished]. *)
Example scenario_twice :
  let o1 := run (publishStoreBookRelease sampleImports firstEdition owner) digitalWorld in
  let o2 := run (publishStoreBookRelease sampleImports firstEdition owner) (final o1) in
  isSuccess (result o1) = true /\
  result o2 = inl (ApiErr storeBookReleaseAlreadyPublished) /\
  final o2 = final o1.
Proof. repeat split. Qed.

(** * Further properties of the resolvers *)

(** ** Who may publish *)

(** X1: a caller with an identity who is neither an operator nor the owner
    of the release is turned away with [actionNotAllowed] right after the
    release was loaded: the parent book is not read, no document is opened,
    nothing is written. *)
Theorem publish_stranger_rejected (I : Imports) (w : World) (args : PublishArgs)
  (context : ResolverContext) (u : string) (caller : User) (r : StoreBookRelease) :
  argUuid args = Some u ->
  user context = Some caller ->
  findFirstRelease w u = Some r ->
  authorized I caller r = false ->
  run (publishStoreBookRelease I args context) w
  = mkOutcome (inl (ApiErr actionNotAllowed)) w [FindFirstRelease u].
Proof.
  intros Hu Hc Hr Ha.
  unfold publishStoreBookRelease, storeBookRelease_findFirst, await.
  rewrite Hu, Hc. cbn [bind run handle]. rewrite Hr.
  unfold authorized in Ha. rewrite <- negb_orb, Ha. reflexivity.
Qed.

Lemma publish_stranger_rejected_witness :
  authorized sampleImports (mkUser 99) (withPrint sampleRelease) = false /\
  run (publishStoreBookRelease sampleImports firstEdition stranger) (printWorld 24 900)
  = mkOutcome (inl (ApiErr actionNotAllowed)) (printWorld 24 900) [FindFirstRelease "R1"].
Proof.
  split; [reflexivity |].
  exact (@publish_stranger_rejected sampleImports (printWorld 24 900) firstEdition stranger
           "R1" (mkUser 99) (withPrint sampleRelease) eq_refl eq_refl eq_refl eq_refl).
Defined.

(** X2: the identity of the caller matters for the permission only.  Two
    callers who may both act on the release (the owner and an operator,
    say) get the same result, the same final store and the same trace for
    the same arguments. *)
Theorem publish_same_for_authorized_callers (I : Imports) (w : World) (args : PublishArgs)
  (context1 context2 : ResolverContext) (u : string) (caller1 caller2 : User)
  (r : StoreBookRelease) :
  argUuid args = Some u ->
  findFirstRelease w u = Some r ->
  user context1 = Some caller1 ->
  user context2 = Some caller2 ->
  authorized I caller1 r = true ->
  authorized I caller2 r = true ->
  run (publishStoreBookRelease I args context1) w
  = run (publishStoreBookRelease I args context2) w.
Proof.
  intros Hu Hr H1 H2 A1 A2.
  unfold publishStoreBookRelease, storeBookRelease_findFirst, await.
  rewrite Hu, H1, H2. cbn [bind run handle]. rewrite Hr.
  unfold authorized in A1, A2. rewrite <- !negb_orb, A1, A2. reflexivity.
Qed.

Lemma publish_same_for_authorized_callers_witness :
  (authorized sampleImports (mkUser 42) (withPrint sampleRelease) = true /\
   authorized sampleImports (mkUser 1) (withPrint sampleRelease) = true) /\
  run (publishStoreBookRelease sampleImports firstEdition owner) (printWorld 24 900)
  = run (publishStoreBookRelease sampleImports firstEdition operator) (printWorld 24 900).
Proof.
  split; [split; reflexivity |].
  exact (@publish_same_for_authorized_callers sampleImports (printWorld 24 900) firstEdition
           owner operator "R1" (mkUser 42) (mkUser 1) (withPrint sampleRelease)
           eq_refl eq_refl eq_refl eq_refl eq_refl eq_refl).
Defined.

(** ** What a call leaves as it is *)

Lemma publish_final (I : Imports) (w : World) (args : PublishArgs) (context : ResolverContext) :
  final (run (publishStoreBookRelease I args context) w) = w \/
  exists r,
    final (run (publishStoreBookRelease I args context) w)
    = setReleases w (updateRows (id r) (publishData args (clock w)) (storeBookReleases w)).
Proof.
  destruct (publish_stopped_early I w args context)
    as [(u & caller & r & b & R) | (F & _)]; [| auto].
  rewrite (publish_reaches R). cbv zeta. cbn [final].
  rewrite run_validateAndUpdate. cbv zeta.
  destruct (failures (argErrors I args)); [| auto].
  destruct (result (inspectRelease I w r)); [auto |].
  destruct (find (fun r' => id r' =? id r) (storeBookReleases w)); [| auto].
  right. exists r. reflexivity.
Qed.

Lemma map_updateRows {B : Type} (g : StoreBookRelease -> B) (i : Z) (d : UpdateData)
  (rows : list StoreBookRelease) :
  (forall x, g (applyData d x) = g x) ->
  map g (updateRows i d rows) = map g rows.
Proof.
  intro H. induction rows as [| a rows IH]; [reflexivity |].
  cbn [updateRows]. destruct (id a =? i); cbn [map]; [rewrite H | rewrite IH]; reflexivity.
Qed.

Lemma updateRows_Forall2 (i : Z) (d : UpdateData) (rows : list StoreBookRelease) :
  Forall2 (keptOrPublished d) rows (updateRows i d rows).
Proof.
  induction rows as [| a rows IH]; [constructor |].
  cbn [updateRows]. destruct (id a =? i).
  - constructor; [right; reflexivity |].
    clear IH. induction rows; constructor; [left; reflexivity | assumption].
  - constructor; [left; reflexivity | exact IH].
Qed.

Lemma Forall2_kept (d : UpdateData) (rows : list StoreBookRelease) :
  Forall2 (keptOrPublished d) rows rows.
Proof. induction rows; constructor; [left; reflexivity | assumption]. Qed.

(** The rows after any call, against the rows before. *)
Lemma publish_rows (I : Imports) (w : World) (args : PublishArgs) (context : ResolverContext) :
  Forall2 (keptOrPublished (publishData args (clock w)))
    (storeBookReleases w)
    (storeBookReleases (final (run (publishStoreBookRelease I args context) w))).
Proof.
  destruct (publish_final I w args context) as [F | (r & F)]; rewrite F.
  - apply Forall2_kept.
  - cbn [setReleases storeBookReleases]. apply updateRows_Forall2.
Qed.

Lemma found_release_has_uuid (w : World) (u : string) (r : StoreBookRelease) :
  findFirstRelease w u = Some r -> In r (storeBookReleases w) /\ uuid r = u.
Proof.
  intro H. apply find_some in H. destruct H as [Hin E].
  split; [exact Hin | apply String.eqb_eq; exact E].
Qed.

Lemma publish_final_reached (I : Imports) (w : World) (args : PublishArgs)
  (context : ResolverContext) :
  final (run (publishStoreBookRelease I args context) w) = w \/
  exists u r,
    argUuid args = Some u /\
    findFirstRelease w u = Some r /\
    final (run (publishStoreBookRelease I args context) w)
    = setReleases w (updateRows (id r) (publishData args (clock w)) (storeBookReleases w)).
Proof.
  destruct (publish_stopped_early I w args context)
    as [(u & caller & r & b & R) | (F & _)]; [| auto].
  pose proof R as (Hu & _ & Hr & _).
  rewrite (publish_reaches R). cbv zeta. cbn [final].
  rewrite run_validateAndUpdate. cbv zeta.
  destruct (failures (argErrors I args)); [| auto].
  destruct (result (inspectRelease I w r)); [auto |].
  destruct (find (fun r' => id r' =? id r) (storeBookReleases w)); [| auto].
  right. exists u, r. auto.
Qed.

Lemma Forall2_map_In {A : Type} (P : A -> A -> Prop) (g : A -> A) (l : list A) :
  (forall x, In x l -> P x (g x)) -> Forall2 P l (map g l).
Proof.
  induction l as [| a l IH]; intro H; [constructor |].
  cbn [map]. constructor; [apply H; left; reflexivity |].
  apply IH. intros x Hx. apply H. right. exact Hx.
Qed.

(** X3: a call changes at most the release it names.  With [id] a primary
    key, for every input and however the call ends, each row of the table
    is afterwards what it was before, except possibly the row whose uuid
    is the uuid of the request, which is then that row rewritten with the
    data of the request; no row is added, removed or moved. *)
Theorem publish_changes_only_named_release (I : Imports) (w : World) (args : PublishArgs)
  (context : ResolverContext) :
  NoDup (map id (storeBookReleases w)) ->
  Forall2 (fun before after =>
             after = before \/
             (argUuid args = Some (uuid before) /\
              after = applyData (publishData args (clock w)) before))
    (storeBookReleases w)
    (storeBookReleases (final (run (publishStoreBookRelease I args context) w))).
Proof.
  intro ND.
  destruct (publish_final_reached I w args context) as [F | (u & r & Hu & Hr & F)];
    rewrite F.
  - rewrite <- (map_id (storeBookReleases w)) at 2. apply Forall2_map_In. auto.
  - cbn [setReleases storeBookReleases]. rewrite (@updateRows_map _ _ _ ND).
    apply Forall2_map_In. intros x Hx.
    destruct (id x =? id r) eqn:E; [| left; reflexivity].
    right. split; [| reflexivity].
    apply Z.eqb_eq in E.
    destruct (found_release_has_uuid _ _ Hr) as [Hin Huuid].
    pose proof (@find_by_id _ _ ND Hin) as F1.
    pose proof (@find_by_id _ _ ND Hx) as F2.
    rewrite E in F2. assert (x = r) by congruence. subst x. congruence.
Qed.

Lemma publish_changes_only_named_release_witness :
  NoDup (map id (storeBookReleases digitalWorld)) /\
  Forall2 (fun before after =>
             after = before \/
             (argUuid firstEdition = Some (uuid before) /\
              after = applyData (publishData firstEdition (clock digitalWorld)) before))
    (storeBookReleases digitalWorld)
    (storeBookReleases
       (final (run (publishStoreBookRelease sampleImports firstEdition owner) digitalWorld))).
Proof.
  assert (N : NoDup (map id (storeBookReleases digitalWorld))).
  { cbn. constructor; [cbn; intros [H | []]; discriminate |].
    constructor; [intros [] | constructor]. }
  split; [exact N |].
  exact (publish_changes_only_named_release sampleImports digitalWorld firstEdition owner N).
Defined.

(** X4: a call never takes a publication back.  Row by row, the status
    after the call is the status before or ["published"]; so every release
    that was published before the call is published after it, whatever the
    input and the outcome. *)
Theorem publish_never_unpublishes (I : Imports) (w : World) (args : PublishArgs)
  (context : ResolverContext) :
  Forall2 (fun before after =>
             status after = status before \/ status after = Some "published")
    (storeBookReleases w)
    (storeBookReleases (final (run (publishStoreBookRelease I args context) w))).
Proof.
  eapply Forall2_impl; [| apply publish_rows].
  intros a b [-> | ->]; cbn; auto.
Qed.

(** X5: the invariant that [publishedAt] is set exactly on the published
    releases is kept: if it holds for every release before a call, it holds
    for every release after it. *)
Theorem publish_keeps_publishedAt_consistent (I : Imports) (w : World) (args : PublishArgs)
  (context : ResolverContext) :
  Forall publishedAtConsistent (storeBookReleases w) ->
  Forall publishedAtConsistent
    (storeBookReleases (final (run (publishStoreBookRelease I args context) w))).
Proof.
  intro H. pose proof (publish_rows I w args context) as R.
  induction R as [| a b rows rows' Hab R IH]; [constructor |].
  inversion H as [| ? ? Ha Hrows]; subst.
  constructor; [| exact (IH Hrows)].
  destruct Hab as [-> | ->]; [exact Ha |].
  unfold publishedAtConsistent. cbn. split; [reflexivity | discriminate].
Qed.

Lemma publish_keeps_publishedAt_consistent_witness :
  Forall publishedAtConsistent (storeBookReleases digitalWorld) /\
  Forall publishedAtConsistent
    (storeBookReleases
       (final (run (publishStoreBookRelease sampleImports firstEdition owner) digitalWorld))).
Proof.
  assert (H : Forall publishedAtConsistent (storeBookReleases digitalWorld)).
  { repeat constructor; cbn; try discriminate; intro N; contradiction N; reflexivity. }
  split; [exact H |].
  exact (publish_keeps_publishedAt_consistent sampleImports digitalWorld firstEdition owner H).
Defined.

(** ** The order of the work on the documents *)

Lemma pageOps_app (pdf : PDFDocumentProxy) (a b : nat) (i : Z) :
  pageOps pdf i (a + b) = pageOps pdf i a ++ pageOps pdf (i + Z.of_nat a) b.
Proof.
  revert i. induction a as [| a IH]; intro i.
  - cbn [pageOps Nat.add app Z.of_nat]. rewrite Z.add_0_r. reflexivity.
  - cbn [pageOps Nat.add app]. rewrite IH. do 3 f_equal. lia.
Qed.

Lemma inspections_pageOps (pdf : PDFDocumentProxy) (n : nat) (i : Z) :
  inspections (pageOps pdf i n) = pageOps pdf i n.
Proof. revert i. induction n as [| n IH]; intro i; cbn; [| rewrite <- IH at 2]; reflexivity. Qed.

Lemma firstBadPage_bound (V : ValidationService) (views : list PageView) (k : nat) (m : string) :
  firstBadPage V views = Some (k, m) -> (k < List.length views)%nat.
Proof.
  intro H. destruct (firstBadPage_some _ _ H) as (v & N & _).
  apply nth_error_Some. congruence.
Qed.

(** The operations of the print block are all operations on documents, and
    they are an initial part of the plan. *)
Lemma inspectPrintAssets_plan (I : Imports) (w : World) (c : StoreBookPrintCover)
  (f : StoreBookPrintFile) (fp cp : list PageView) :
  lookupAsset (assets w) (getTableObjectFileUrl I (printFileUuid f)) = Some fp ->
  lookupAsset (assets w) (getTableObjectFileUrl I (printCoverUuid c)) = Some cp ->
  inspections (trace (inspectPrintAssets I w c f)) = trace (inspectPrintAssets I w c f) /\
  exists rest, inspectionPlan I c f fp cp = trace (inspectPrintAssets I w c f) ++ rest.
Proof.
  intros Hf Hc. unfold inspectPrintAssets, inspectionPlan. cbv zeta. rewrite Hf, Hc.
  set (fu := getTableObjectFileUrl I (printFileUuid f)).
  set (cu := getTableObjectFileUrl I (printCoverUuid c)).
  set (fpdf := mkPdf fu (Z.of_nat (List.length fp))).
  set (cpdf := mkPdf cu (Z.of_nat (List.length cp))).
  assert (P : forall n t, inspections (GetDocument fu :: pageOps fpdf 1 n ++ t)
                          = GetDocument fu :: pageOps fpdf 1 n ++ inspections t).
  { intros n t. change (inspections (GetDocument fu :: ?x)) with (GetDocument fu :: inspections x).
    rewrite inspections_app, inspections_pageOps. reflexivity. }
  assert (P0 : forall n, inspections (GetDocument fu :: pageOps fpdf 1 n)
                         = GetDocument fu :: pageOps fpdf 1 n).
  { intro n. pose proof (P n []) as Q. rewrite !app_nil_r in Q. exact Q. }
  destruct (validateStoreBookPrintFilePages (validation I) (Z.of_nat (List.length fp))).
  { cbn [trace]. split; [reflexivity |]. eexists. cbn [app]. reflexivity. }
  destruct (firstBadPage (validation I) fp) as [[k m] |] eqn:Hbad.
  { cbn [trace]. split.
    - apply P0.
    - apply firstBadPage_bound in Hbad.
      assert (Split : pageOps fpdf 1 (List.length fp)
                      = pageOps fpdf 1 (S k)
                        ++ pageOps fpdf (1 + Z.of_nat (S k)) (List.length fp - S k))
        by (rewrite <- pageOps_app; f_equal; lia).
      rewrite Split. eexists. rewrite <- app_assoc. cbn [app]. reflexivity. }
  destruct (validateStoreBookPrintCoverPages (validation I) (Z.of_nat (List.length cp))).
  { cbn [trace]. split; [rewrite P; reflexivity |].
    exists [GetPage cpdf 1]. cbn [app]. rewrite <- app_assoc. reflexivity. }
  assert (Full : inspections ((GetDocument fu :: pageOps fpdf 1 (List.length fp)
                                 ++ [GetDocument cu]) ++ [GetPage cpdf 1])
                 = (GetDocument fu :: pageOps fpdf 1 (List.length fp) ++ [GetDocument cu])
                   ++ [GetPage cpdf 1]).
  { cbn [app]. rewrite <- app_assoc, P. reflexivity. }
  assert (Whole : GetDocument fu :: pageOps fpdf 1 (List.length fp)
                    ++ [GetDocument cu; GetPage cpdf 1]
                  = ((GetDocument fu :: pageOps fpdf 1 (List.length fp) ++ [GetDocument cu])
                     ++ [GetPage cpdf 1]) ++ []).
  { rewrite app_nil_r. cbn [app]. rewrite <- app_assoc. reflexivity. }
  destruct cp as [| [[[x y] cw] ch] cp'].
  { cbn [trace]. split; [exact Full | exists []; exact Whole]. }
  destruct (validateStoreBookPrintCoverPageSize (validation I) cw ch
              (Z.of_nat (List.length fp)));
    cbn [trace]; (split; [exact Full | exists []; exact Whole]).
Qed.

(** X6: the documents of a release are worked on in one fixed order: the
    interior is opened, its pages are fetched from page 1 upwards, the
    cover is opened, the first page of the cover is fetched.  Every call
    goes some way along this sequence and never leaves it: the cover is
    not opened before the last interior page was fetched, no page of the
    cover but the first is ever fetched, and a call costs at most
    [numPages + 3] operations on documents. *)
Theorem publish_inspection_order (I : Imports) (w : World) (args : PublishArgs)
  (context : ResolverContext) (u : string) (caller : User) (r : StoreBookRelease)
  (b : StoreBook) (c : StoreBookPrintCover) (f : StoreBookPrintFile)
  (fp cp : list PageView) :
  Reaches I w args context u caller r b ->
  printCover r = Some c ->
  printFile r = Some f ->
  lookupAsset (assets w) (getTableObjectFileUrl I (printFileUuid f)) = Some fp ->
  lookupAsset (assets w) (getTableObjectFileUrl I (printCoverUuid c)) = Some cp ->
  let done := inspections (trace (run (publishStoreBookRelease I args context) w)) in
  (exists rest, inspectionPlan I c f fp cp = done ++ rest) /\
  (List.length done <= List.length fp + 3)%nat.
Proof.
  intros R Ec Ef Hf Hc.
  destruct (inspectPrintAssets_plan I w c f Hf Hc) as [Hall (rest & Hplan)].
  assert (E : inspections (trace (run (publishStoreBookRelease I args context) w)) = []
              \/ inspections (trace (run (publishStoreBookRelease I args context) w))
                 = trace (inspectPrintAssets I w c f)).
  { rewrite (publish_reaches R). cbv zeta. cbn [trace].
    rewrite run_validateAndUpdate. cbv zeta.
    unfold inspectRelease. rewrite Ec, Ef.
    change (inspections (FindFirstRelease u :: FindFirstStoreBook (storeBookId r) :: ?t))
      with (inspections t).
    destruct (failures (argErrors I args)); [| left; reflexivity].
    right.
    destruct (result (inspectPrintAssets I w c f)); [exact Hall |].
    destruct (find (fun r' => id r' =? id r) (storeBookReleases w)); cbn [trace];
      rewrite inspections_app, Hall; cbn; apply app_nil_r. }
  cbv zeta.
  assert (L : List.length (inspectionPlan I c f fp cp) = (List.length fp + 3)%nat).
  { unfold inspectionPlan. cbn [List.length]. rewrite length_app. cbn [List.length].
    assert (Lp : forall pdf n i, List.length (pageOps pdf i n) = n)
      by (intros pdf n; induction n; intro i; cbn; auto).
    rewrite Lp. lia. }
  destruct E as [-> | ->].
  - split; [exists (inspectionPlan I c f fp cp); reflexivity | cbn; lia].
  - split; [exists rest; exact Hplan |].
    rewrite <- L, Hplan, length_app. lia.
Qed.

Lemma publish_inspection_order_witness :
  let done := inspections (trace (run (publishStoreBookRelease sampleImports firstEdition owner)
                                    badPageWorld)) in
  Reaches sampleImports badPageWorld firstEdition owner "R1" (mkUser 42)
    (withPrint sampleRelease) (mkStoreBook 3 (Some "published")) /\
  (exists rest,
     inspectionPlan sampleImports (mkPrintCover "PC1") (mkPrintFile "PF1")
       (repeat interiorPage 24 ++ [badPage]) [(0, 0, 900, 648)%Q] = done ++ rest) /\
  (List.length done <= 25 + 3)%nat.
Proof.
  assert (R : Reaches sampleImports badPageWorld firstEdition owner "R1" (mkUser 42)
                (withPrint sampleRelease) (mkStoreBook 3 (Some "published")))
    by (repeat split).
  split; [exact R |].
  exact (@publish_inspection_order sampleImports badPageWorld firstEdition owner "R1"
           (mkUser 42) (withPrint sampleRelease) (mkStoreBook 3 (Some "published"))
           (mkPrintCover "PC1") (mkPrintFile "PF1") (repeat interiorPage 24 ++ [badPage])
           [(0, 0, 900, 648)%Q] R eq_refl eq_refl eq_refl eq_refl).
Defined.

(** ** Publishing and retrieving *)

Lemma retrieve_run (w : World) (u : string) :
  run (retrieveStoreBookRelease (Some u)) w =
  mkOutcome
    match findFirstRelease w u with
    | None => inl (TypeError "status")
    | Some r => inr (Some (withDefaultStatus r))
    end w [FindFirstRelease u].
Proof.
  unfold retrieveStoreBookRelease, storeBookRelease_findFirst, await.
  cbn [bind run handle]. destruct (findFirstRelease w u); reflexivity.
Qed.

Lemma found_has_uuid (w : World) (u : string) (r : StoreBookRelease) :
  findFirstRelease w u = Some r -> In r (storeBookReleases w) /\ uuid r = u.
Proof.
  intro H. apply find_some in H. destruct H as [Hin E].
  split; [exact Hin | apply String.eqb_eq; exact E].
Qed.

(** X7: what was published can be retrieved.  After a call that succeeds
    with release [x], [retrieveStoreBookRelease] for the same uuid answers
    [x]: published, carrying the name of the request and the time of the
    call. *)
Theorem publish_then_retrieve (I : Imports) (w : World) (args : PublishArgs)
  (context : ResolverContext) (u : string) (x : StoreBookRelease) :
  argUuid args = Some u ->
  NoDup (map id (storeBookReleases w)) ->
  result (run (publishStoreBookRelease I args context) w) = inr (Some x) ->
  let w' := final (run (publishStoreBookRelease I args context) w) in
  result (run (retrieveStoreBookRelease (Some u)) w') = inr (Some x) /\
  status x = Some "published" /\
  releaseName x = argReleaseName args /\
  publishedAt x = Some (clock w).
Proof.
  intros Hu ND H.
  destruct (publish_success_inv _ _ _ _ H) as (u' & caller & r & b & R & E & K).
  pose proof R as (Hu' & _ & Hr & _).
  assert (u' = u) by congruence. subst u'.
  destruct (publish_success_run R E K ND) as [S F].
  assert (x = applyData (publishData args (clock w)) r) by congruence. subst x.
  cbv zeta. rewrite F.
  pose proof (retrieve_run (setReleases w (updateRows (id r) (publishData args (clock w))
                                            (storeBookReleases w))) u) as Q.
  unfold findFirstRelease in *. cbn [storeBookReleases setReleases] in Q.
  rewrite find_after_update in Q by (auto; reflexivity).
  rewrite Hr in Q. cbn [option_map] in Q. rewrite Z.eqb_refl in Q.
  rewrite Q. repeat split.
Qed.

Lemma publish_then_retrieve_witness :
  let x := applyData (publishData firstEdition 1700000000) sampleRelease in
  let w' := final (run (publishStoreBookRelease sampleImports firstEdition owner) digitalWorld) in
  (NoDup (map id (storeBookReleases digitalWorld)) /\
   result (run (publishStoreBookRelease sampleImports firstEdition owner) digitalWorld)
   = inr (Some x)) /\
  result (run (retrieveStoreBookRelease (Some "R1")) w') = inr (Some x) /\
  status x = Some "published" /\
  releaseName x = "First Edition" /\
  publishedAt x = Some 1700000000.
Proof.
  assert (N : NoDup (map id (storeBookReleases digitalWorld))).
  { cbn. constructor; [cbn; intros [H | []]; discriminate |].
    constructor; [intros [] | constructor]. }
  split; [split; [exact N | reflexivity] |].
  exact (@publish_then_retrieve sampleImports digitalWorld firstEdition owner "R1" _
           eq_refl N eq_refl).
Defined.

(** X8: publishing one release does not show in any other.  After a call
    that succeeds for uuid [u], [retrieveStoreBookRelease] for any other
    uuid ends as it would have ended before the call, be it with the same
    release or with the same error. *)
Theorem publish_leaves_other_releases (I : Imports) (w : World) (args : PublishArgs)
  (context : ResolverContext) (u u' : string) (x : StoreBookRelease) :
  argUuid args = Some u ->
  NoDup (map id (storeBookReleases w)) ->
  result (run (publishStoreBookRelease I args context) w) = inr (Some x) ->
  u' <> u ->
  let w' := final (run (publishStoreBookRelease I args context) w) in
  result (run (retrieveStoreBookRelease (Some u')) w')
  = result (run (retrieveStoreBookRelease (Some u')) w).
Proof.
  intros Hu ND H Hne.
  destruct (publish_success_inv _ _ _ _ H) as (u0 & caller & r & b & R & E & K).
  pose proof R as (Hu0 & _ & Hr & _).
  assert (u0 = u) by congruence. subst u0.
  destruct (publish_success_run R E K ND) as [_ F].
  destruct (found_has_uuid _ _ Hr) as [Hin Huuid].
  cbv zeta. rewrite F, !retrieve_run. cbn [result].
  unfold findFirstRelease. cbn [storeBookReleases setReleases].
  rewrite find_after_update by (auto; reflexivity).
  destruct (find (fun r0 => String.eqb (uuid r0) u') (storeBookReleases w)) as [r' |] eqn:Hr';
    [| reflexivity].
  cbn [option_map].
  destruct (found_has_uuid w u' Hr') as [Hin' Huuid'].
  destruct (id r' =? id r) eqn:Eid; [| reflexivity].
  apply Z.eqb_eq in Eid. exfalso. apply Hne.
  pose proof (@find_by_id _ _ ND Hin) as F1.
  pose proof (@find_by_id _ _ ND Hin') as F2.
  rewrite Eid in F2. congruence.
Qed.

Lemma publish_leaves_other_releases_witness :
  let w' := final (run (publishStoreBookRelease sampleImports firstEdition owner) digitalWorld) in
  (NoDup (map id (storeBookReleases digitalWorld)) /\ "R2" <> "R1") /\
  result (run (retrieveStoreBookRelease (Some "R2")) w')
  = result (run (retrieveStoreBookRelease (Some "R2")) digitalWorld).
Proof.
  assert (N : NoDup (map id (storeBookReleases digitalWorld))).
  { cbn. constructor; [cbn; intros [H | []]; discriminate |].
    constructor; [intros [] | constructor]. }
  assert (D : "R2" <> "R1") by discriminate.
  split; [split; assumption |].
  exact (@publish_leaves_other_releases sampleImports digitalWorld firstEdition owner
           "R1" "R2" _ eq_refl N eq_refl D).
Defined.

(** ** The categories of a release *)

Lemma categoriesTake_cases (args : ListArgs) :
  categoriesTake args
  = match limit args with
    | Some n => if 0 <? n then n else 10
    | None => 10
    end.
Proof.
  unfold categoriesTake, orElse. destruct (limit args) as [n |]; [| reflexivity].
  destruct (Z.eqb_spec n 0) as [-> | N]; [reflexivity |].
  destruct (Z.leb_spec n 0), (Z.ltb_spec 0 n); try reflexivity; lia.
Qed.

Lemma categoriesSkip_cases (args : ListArgs) :
  categoriesSkip args
  = match offset args with
    | Some n => if 0 <? n then n else 0
    | None => 0
    end.
Proof.
  unfold categoriesSkip, orElse. destruct (offset args) as [n |]; [| reflexivity].
  destruct (Z.eqb_spec n 0) as [-> | N]; [reflexivity |].
  destruct (Z.ltb_spec n 0), (Z.ltb_spec 0 n); try reflexivity; lia.
Qed.

(** X9: whatever [limit] and [offset] are, absent, zero or negative
    included, the query of [categories] is made with a positive [take]
    and a non-negative [skip]; the page holds at most [take] categories
    and never more than [total]. *)
Theorem categories_page_bounds (db : Catalog) (r : StoreBookRelease) (args : ListArgs) :
  0 < categoriesTake args /\
  0 <= categoriesSkip args /\
  Z.of_nat (List.length (items (categories db r args))) <= categoriesTake args /\
  Z.of_nat (List.length (items (categories db r args))) <= total (categories db r args) /\
  0 <= total (categories db r args).
Proof.
  assert (T : 0 < categoriesTake args).
  { rewrite categoriesTake_cases. destruct (limit args) as [n |]; [| lia].
    destruct (Z.ltb_spec 0 n); lia. }
  assert (S : 0 <= categoriesSkip args).
  { rewrite categoriesSkip_cases. destruct (offset args) as [n |]; [| lia].
    destruct (Z.ltb_spec 0 n); lia. }
  unfold categories, findMany, count. cbn [items total].
  rewrite length_firstn, length_skipn. lia.
Qed.

(** X10: the page size of [categories]: a positive [limit] is taken as it
    is, without an upper bound; a [limit] that is absent, zero or negative
    gives pages of 10.  A missing, zero or negative [offset] starts at the
    first category. *)
Theorem categories_defaults (db : Catalog) (r : StoreBookRelease) (args : ListArgs) :
  items (categories db r args)
  = firstn (match limit args with
            | Some n => if 0 <? n then Z.to_nat n else 10%nat
            | None => 10%nat
            end)
      (skipn (match offset args with
              | Some n => Z.to_nat n
              | None => 0%nat
              end)
         (filter (relatedTo r) (categoryTable db))).
Proof.
  unfold categories, findMany. cbn [items].
  rewrite categoriesTake_cases, categoriesSkip_cases. f_equal.
  - destruct (limit args) as [n |]; [| reflexivity]. destruct (0 <? n); reflexivity.
  - f_equal. destruct (offset args) as [n |]; [| reflexivity].
    destruct (Z.ltb_spec 0 n); [reflexivity |]. destruct n; try reflexivity; lia.
Qed.

Lemma In_firstn {A : Type} (n : nat) (l : list A) (x : A) : In x (firstn n l) -> In x l.
Proof. intro H. rewrite <- (firstn_skipn n l). apply in_or_app. left. exact H. Qed.

Lemma In_skipn {A : Type} (n : nat) (l : list A) (x : A) : In x (skipn n l) -> In x l.
Proof. intro H. rewrite <- (firstn_skipn n l). apply in_or_app. right. exact H. Qed.

(** X11: every category [categories] lists is a row of the table that is
    related to the release, and [total] is the number of all such rows: it
    does not depend on [limit] and [offset]. *)
Theorem categories_sound (db : Catalog) (r : StoreBookRelease) (args args' : ListArgs) :
  Forall (fun c => In c (categoryTable db) /\ In (id r) (categoryReleases c))
    (items (categories db r args)) /\
  total (categories db r args) = total (categories db r args').
Proof.
  split; [| reflexivity].
  apply Forall_forall. intros c Hc. unfold categories, findMany in Hc. cbn [items] in Hc.
  apply In_firstn, In_skipn, filter_In in Hc. destruct Hc as [Hin Hrel].
  split; [exact Hin |].
  unfold relatedTo in Hrel. apply existsb_exists in Hrel.
  destruct Hrel as (i & Hi & E). apply Z.eqb_eq in E. subst i. exact Hi.
Qed.

(** X13: an [offset] at or behind the last category gives an empty page
    and the full [total]. *)
Theorem categories_offset_past_end (db : Catalog) (r : StoreBookRelease)
  (lim : option Z) (a : Z) :
  count (relatedTo r) (categoryTable db) <= a ->
  items (categories db r (mkListArgs lim (Some a))) = [] /\
  total (categories db r (mkListArgs lim (Some a))) = count (relatedTo r) (categoryTable db).
Proof.
  intro H. split; [| reflexivity].
  unfold categories, findMany, count in *. cbn [items].
  rewrite categoriesSkip_cases. cbn [offset].
  destruct (Z.ltb_spec 0 a).
  - rewrite skipn_all2 by lia. apply firstn_nil.
  - assert (E : List.length (filter (relatedTo r) (categoryTable db)) = 0%nat) by lia.
    apply length_zero_iff_nil in E. rewrite E, skipn_nil. apply firstn_nil.
Qed.

Lemma categories_offset_past_end_witness :
  count (relatedTo sampleRelease) (categoryTable sampleCatalog) <= 2 /\
  items (categories sampleCatalog sampleRelease (mkListArgs (Some 5) (Some 2))) = [] /\
  total (categories sampleCatalog sampleRelease (mkListArgs (Some 5) (Some 2))) = 2.
Proof.
  split; [vm_compute; discriminate |].
  apply (@categories_offset_past_end sampleCatalog sampleRelease (Some 5) 2).
  vm_compute; discriminate.
Defined.

(** ** The catalogue search *)

Section SearchProperties.

Variable toLowerCase : string -> string.
Variables Product VlbItem : Type.
Variable getProducts : GetProductsParams -> list Product * Z.
Variable convert : Product -> VlbItem.

Lemma searchTake_positive (args : SearchArgs) : 0 < searchTake args.
Proof.
  unfold searchTake, nullish. destruct (searchLimit args) as [n |]; cbn;
    [destruct (Z.leb_spec n 0); lia | lia].
Qed.

Lemma searchSkip_nonneg (args : SearchArgs) : 0 <= searchSkip args.
Proof.
  unfold searchSkip, nullish. destruct (searchOffset args) as [n |]; cbn;
    [destruct (Z.ltb_spec n 0); lia | lia].
Qed.

(** X14: [search] reads [limit] and [offset] with [??] where [categories]
    reads them with [||]; after the clamping that follows, the two agree on
    every input, a [limit] or [offset] of 0 included. *)
Theorem search_normalises_like_categories (q : string) (lim off : option Z) :
  searchTake (mkSearchArgs q lim off) = categoriesTake (mkListArgs lim off) /\
  searchSkip (mkSearchArgs q lim off) = categoriesSkip (mkListArgs lim off).
Proof.
  unfold searchTake, searchSkip, categoriesTake, categoriesSkip, nullish, orElse.
  cbn [searchLimit searchOffset limit offset]. split.
  - destruct lim as [n |]; [| reflexivity].
    destruct (Z.eqb_spec n 0) as [-> | N]; reflexivity.
  - destruct off as [n |]; [| reflexivity].
    destruct (Z.eqb_spec n 0) as [-> | N]; reflexivity.
Qed.

Lemma roundHalfEven_bounds (n d : Z) : 0 < d -> n / d <= roundHalfEven n d <= n / d + 1.
Proof.
  intro H. unfold roundHalfEven.
  repeat match goal with
         | |- context [if ?c then _ else _] => destruct c
         end; lia.
Qed.

Lemma roundHalfEven_up (n d : Z) :
  0 < d -> roundHalfEven n d = n / d + 1 -> d <= 2 * (n mod d).
Proof.
  intro H. unfold roundHalfEven.
  destruct (Z.ltb_spec (2 * (n mod d)) d); lia.
Qed.

Lemma binade_le (a b : Z) : 0 < a -> 0 < b -> binade a b <= Z.log2 a.
Proof.
  intros Ha Hb. unfold binade. pose proof (Z.log2_nonneg b).
  destruct (scaledLe _ _ _); lia.
Qed.

Lemma binade_lower (a b : Z) :
  0 < a -> 0 < b -> 0 <= binade a b -> b * 2 ^ binade a b <= a.
Proof.
  intros Ha Hb. unfold binade.
  set (e := Z.log2 a - Z.log2 b).
  destruct (scaledLe e b a) eqn:S; intro He.
  - unfold scaledLe in S. destruct (Z.leb_spec 0 e); [| lia]. apply Z.leb_le in S. exact S.
  - pose proof (Z.log2_spec a Ha) as [La _]. pose proof (Z.log2_spec b Hb) as [_ Lb].
    pose proof (Z.log2_nonneg b) as Nb.
    assert (E : Z.log2 a = (e - 1) + Z.succ (Z.log2 b)) by (unfold e; lia).
    rewrite E, Z.pow_add_r in La by lia.
    assert (0 < 2 ^ (e - 1)) by (apply Z.pow_pos_nonneg; lia).
    nia.
Qed.

(** Below [2 ^ 53] the rounding of the quotient does not reach the next
    integer: [Math.floor(a / b)] is the integer quotient. *)
Lemma floorOfQuotient_exact (a b : Z) :
  0 < a < 2 ^ 53 -> 0 < b -> floorOfQuotient a b = a / b.
Proof.
  intros [Ha Ha53] Hb.
  unfold floorOfQuotient, nearestDouble, floorDouble.
  set (e := binade a b).
  assert (Ee : e <= 52).
  { pose proof (@binade_le a b Ha Hb).
    assert (Z.log2 a < 53) by (apply Z.log2_lt_pow2; lia). unfold e. lia. }
  set (s := Z.max (e - 52) (-1074)).
  assert (Hs : s <= 0) by (unfold s; lia).
  replace (0 <? s) with false by (symmetry; apply Z.ltb_ge; lia).
  set (t := - s). assert (Ht : 0 <= t) by (unfold t; lia).
  set (T := 2 ^ t). assert (HT : 0 < T) by (apply Z.pow_pos_nonneg; lia).
  set (k := a / b).
  pose proof (Z.mul_div_le a b Hb) as K1.
  pose proof (Z.mul_succ_div_gt a b Hb) as K2. fold k in K1, K2.
  assert (Hk : 0 <= k) by (apply Z.div_pos; lia).
  assert (Key : 2 ^ 52 < (k + 1) * T).
  { destruct (Z.le_gt_cases 53 t) as [Big | Small].
    - assert (2 ^ 53 <= T) by (apply Z.pow_le_mono_r; lia).
      assert (2 ^ 52 < 2 ^ 53) by (apply Z.pow_lt_mono_r; lia). nia.
    - assert (Es : s = e - 52) by (unfold s, t in *; lia).
      assert (He : 0 <= e) by (unfold t in *; lia).
      pose proof (@binade_lower a b Ha Hb He) as L. fold e in L.
      assert (P : 0 < 2 ^ e) by (apply Z.pow_pos_nonneg; lia).
      assert (Kk : 2 ^ e <= k) by (apply Z.div_le_lower_bound; lia).
      assert (TT : 2 ^ e * T = 2 ^ 52).
      { unfold T. rewrite <- Z.pow_add_r by lia. f_equal. unfold t. lia. }
      nia. }
  set (N := a * T).
  pose proof (@roundHalfEven_bounds N b Hb) as [M1 M2].
  set (m := roundHalfEven N b) in *.
  pose proof (Z.mul_div_le N b Hb) as N1.
  pose proof (Z.mul_succ_div_gt N b Hb) as N2.
  symmetry. apply Z.div_unique_pos with (r := m - k * T); [| lia].
  split.
  - assert (k * T <= N / b) by (apply Z.div_le_lower_bound; unfold N; nia). lia.
  - assert (U : N / b <= (k + 1) * T - 1).
    { assert (N / b < (k + 1) * T); [| lia].
      apply Z.div_lt_upper_bound; [lia |]. unfold N. nia. }
    destruct (Z.eq_dec m (N / b + 1)) as [Up | NoUp]; [| lia].
    destruct (Z.eq_dec (N / b) ((k + 1) * T - 1)) as [Top | NoTop]; [| lia].
    exfalso.
    pose proof (@roundHalfEven_up N b Hb Up) as R.
    rewrite Z.mod_eq in R by lia. rewrite Top in R.
    assert (2 ^ 53 = 2 * 2 ^ 52) by reflexivity.
    unfold N in *. nia.
Qed.

Lemma plusOne_exact (n : Z) : 0 <= n < 2 ^ 53 -> plusOne n = n + 1.
Proof.
  intros [H0 H1]. unfold plusOne. fold (floorOfQuotient (n + 1) 1).
  destruct (Z.eq_dec (n + 1) (2 ^ 53)) as [E | N].
  - rewrite E. vm_compute. reflexivity.
  - rewrite floorOfQuotient_exact by lia. apply Z.div_1_r.
Qed.

(** The page of a request for a [skip] below [2 ^ 53]. *)
Lemma searchRequest_page (args : SearchArgs) :
  searchSkip args < 2 ^ 53 ->
  paramPage (searchRequest toLowerCase args)
  = if 0 <? searchSkip args then searchSkip args / searchTake args + 1 else 1.
Proof.
  intro B. unfold searchRequest. cbn [paramPage].
  pose proof (searchTake_positive args) as T.
  destruct (Z.ltb_spec 0 (searchSkip args)) as [P | P]; [| reflexivity].
  rewrite floorOfQuotient_exact by lia.
  apply plusOne_exact. split; [apply Z.div_pos; lia |].
  apply Z.le_lt_trans with (searchSkip args); [| exact B].
  apply Z.div_le_upper_bound; nia.
Qed.

(** X15: for an offset below [2 ^ 53], where the division and the addition
    of line 26 are exact, the page [search] asks for is numbered from 1,
    has a positive size, and is the page the offset falls on:
    [(page - 1) * size <= skip < page * size]. *)
Theorem search_page_holds_offset (args : SearchArgs) :
  searchSkip args < 2 ^ 53 ->
  let request := searchRequest toLowerCase args in
  1 <= paramPage request /\
  0 < paramSize request /\
  (paramPage request - 1) * paramSize request <= searchSkip args
  < paramPage request * paramSize request.
Proof.
  intro B. cbv zeta. rewrite (searchRequest_page args B).
  unfold searchRequest. cbn [paramSize].
  pose proof (searchTake_positive args) as T.
  pose proof (searchSkip_nonneg args) as S.
  destruct (Z.ltb_spec 0 (searchSkip args)) as [P | P].
  - pose proof (Z.div_pos (searchSkip args) (searchTake args) ltac:(lia) T) as D.
    pose proof (Z.mul_div_le (searchSkip args) (searchTake args) T) as L.
    pose proof (Z.mul_succ_div_gt (searchSkip args) (searchTake args) T) as G.
    split; [lia |]. split; [exact T |]. nia.
  - split; [lia |]. split; [exact T |]. lia.
Qed.

(** X16: [search] works in whole pages.  An offset below [2 ^ 53] is
    rounded down to the start of its page: asking with offset [o] gives the
    same request, and so the same answer, as asking with the offset
    [size * (o / size)]. *)
Theorem search_rounds_offset_down (q : string) (lim : option Z) (o : Z) :
  0 <= o < 2 ^ 53 ->
  let size := searchTake (mkSearchArgs q lim (Some o)) in
  searchRequest toLowerCase (mkSearchArgs q lim (Some o))
  = searchRequest toLowerCase (mkSearchArgs q lim (Some (size * (o / size)))) /\
  search toLowerCase getProducts convert (mkSearchArgs q lim (Some o))
  = search toLowerCase getProducts convert (mkSearchArgs q lim (Some (size * (o / size)))).
Proof.
  intros [Ho Hb]. cbv zeta.
  set (size := searchTake (mkSearchArgs q lim (Some o))).
  assert (T : 0 < size) by apply searchTake_positive.
  pose proof (Z.div_pos o size Ho T) as D.
  pose proof (Z.mul_div_le o size T) as Le.
  assert (Q : size * (o / size) / size = o / size)
    by (rewrite Z.mul_comm; apply Z.div_mul; lia).
  assert (S1 : searchSkip (mkSearchArgs q lim (Some o)) = o).
  { unfold searchSkip, nullish. cbn. destruct (Z.ltb_spec o 0); [lia | reflexivity]. }
  assert (S2 : searchSkip (mkSearchArgs q lim (Some (size * (o / size))))
               = size * (o / size)).
  { unfold searchSkip, nullish. cbn [searchOffset].
    destruct (Z.ltb_spec (size * (o / size)) 0); [nia | reflexivity]. }
  assert (E : searchRequest toLowerCase (mkSearchArgs q lim (Some o))
              = searchRequest toLowerCase (mkSearchArgs q lim (Some (size * (o / size))))).
  { pose proof (searchRequest_page (mkSearchArgs q lim (Some o))) as P1.
    pose proof (searchRequest_page (mkSearchArgs q lim (Some (size * (o / size))))) as P2.
    rewrite S1 in P1. rewrite S2 in P2.
    specialize (P1 Hb). specialize (P2 ltac:(lia)).
    change (searchTake (mkSearchArgs q lim (Some (size * (o / size))))) with size in P2.
    fold size in P1. rewrite Q in P2.
    assert (Pg : paramPage (searchRequest toLowerCase (mkSearchArgs q lim (Some o)))
                 = paramPage (searchRequest toLowerCase
                                (mkSearchArgs q lim (Some (size * (o / size)))))).
    { rewrite P1, P2.
      destruct (Z.ltb_spec 0 o), (Z.ltb_spec 0 (size * (o / size))); try reflexivity.
      - assert (o / size = 0) by nia. lia.
      - assert (o = 0) by lia. subst o. rewrite Z.div_0_l in * by lia. lia. }
    unfold searchRequest in Pg. cbn [paramPage] in Pg.
    unfold searchRequest. cbn [searchQuery]. f_equal. exact Pg. }
  split; [exact E |]. unfold search. rewrite E. reflexivity.
Qed.

End SearchProperties.

Lemma search_page_holds_offset_witness :
  let args := mkSearchArgs "Faust" (Some 10) (Some 25) in
  let request := searchRequest (fun s => s) args in
  searchSkip args < 2 ^ 53 /\
  1 <= paramPage request /\
  0 < paramSize request /\
  (paramPage request - 1) * paramSize request <= searchSkip args
  < paramPage request * paramSize request.
Proof.
  assert (B : searchSkip (mkSearchArgs "Faust" (Some 10) (Some 25)) < 2 ^ 53)
    by (vm_compute; reflexivity).
  split; [exact B |].
  exact (search_page_holds_offset (fun s => s) (mkSearchArgs "Faust" (Some 10) (Some 25)) B).
Defined.

Lemma search_rounds_offset_down_witness :
  let getProducts := fun p : GetProductsParams =>
                       (seq (Z.to_nat (paramPage p)) (Z.to_nat (paramSize p)), 40) in
  let size := searchTake (mkSearchArgs "Faust" (Some 10) (Some 25)) in
  0 <= 25 < 2 ^ 53 /\
  searchRequest (fun s => s) (mkSearchArgs "Faust" (Some 10) (Some 25))
  = searchRequest (fun s => s) (mkSearchArgs "Faust" (Some 10) (Some (size * (25 / size)))) /\
  search (fun s => s) getProducts (fun n => n) (mkSearchArgs "Faust" (Some 10) (Some 25))
  = search (fun s => s) getProducts (fun n => n)
      (mkSearchArgs "Faust" (Some 10) (Some (size * (25 / size)))).
Proof.
  assert (B : 0 <= 25 < 2 ^ 53) by (split; [lia | vm_compute; reflexivity]).
  split; [exact B |].
  exact (@search_rounds_offset_down (fun s => s) nat nat
           (fun p => (seq (Z.to_nat (paramPage p)) (Z.to_nat (paramSize p)), 40))
           (fun n => n) "Faust" (Some 10) 25 B).
Defined.

(** Where the bound comes from: at offset [2 ^ 53] the addition of line 26
    is rounded, and with pages of 1 the page asked for no longer holds the
    offset; at offset [3 * 2 ^ 52 + 2] with pages of 3 the quotient is
    rounded up. *)
Example search_page_beyond_bound :
  paramPage (searchRequest (fun s => s) (mkSearchArgs "Faust" (Some 1) (Some (2 ^ 53))))
  = 2 ^ 53 /\
  paramPage (searchRequest (fun s => s) (mkSearchArgs "Faust" (Some 3) (Some (3 * 2 ^ 52 + 2))))
  = 2 ^ 52 + 2 /\
  paramPage (searchRequest (fun s => s) (mkSearchArgs "Faust" (Some 3) (Some (3 * 2 ^ 52))))
  = 2 ^ 52 + 1.
Proof. vm_compute. repeat split. Qed.

(** ** Cover and file of a release *)

(** X17: [cover] answers nothing when the release has no [coverId] or
    when no cover has that id, and it does not raise then.  A cover it
    answers is a stored cover whose id is the [coverId] of the release, and
    its [url] is the retrieval URL of the uuid of that cover. *)
Theorem cover_is_the_cover_of_the_release (I : Imports) (db : Catalog) (r : StoreBookRelease) :
  match cover I db r with
  | Some c =>
      In (coverRow c) (storeBookCovers db) /\
      coverId r = Some (coverRowId (coverRow c)) /\
      coverUrl c = getTableObjectFileUrl I (coverRowUuid (coverRow c))
  | None =>
      coverId r = None \/
      Forall (fun row => Some (coverRowId row) <> coverId r) (storeBookCovers db)
  end.
Proof.
  unfold cover. destruct (coverId r) as [i |]; [| left; reflexivity].
  destruct (find (fun c => coverRowId c =? i) (storeBookCovers db)) as [c |] eqn:F.
  - apply find_some in F. destruct F as [Hin E]. apply Z.eqb_eq in E.
    cbn [coverRow coverUrl]. rewrite E. auto.
  - right. apply Forall_forall. intros row Hin N.
    apply (find_none _ _ F) in Hin. injection N as N. rewrite N, Z.eqb_refl in Hin.
    discriminate.
Qed.

(** X18: [file] answers nothing when the release has no [fileId] or when
    no file has that id; a file it answers is a stored file whose id is
    the [fileId] of the release. *)
Theorem file_is_the_file_of_the_release (db : Catalog) (r : StoreBookRelease) :
  match file db r with
  | Some f => In f (storeBookFiles db) /\ fileId r = Some (fileRowId f)
  | None =>
      fileId r = None \/
      Forall (fun row => Some (fileRowId row) <> fileId r) (storeBookFiles db)
  end.
Proof.
  unfold file. destruct (fileId r) as [i |]; [| left; reflexivity].
  destruct (find (fun f => fileRowId f =? i) (storeBookFiles db)) as [f |] eqn:F.
  - apply find_some in F. destruct F as [Hin E]. apply Z.eqb_eq in E. rewrite E. auto.
  - right. apply Forall_forall. intros row Hin N.
    apply (find_none _ _ F) in Hin. injection N as N. rewrite N, Z.eqb_refl in Hin.
    discriminate.
Qed.

(** X19: publishing does not touch the digital edition.  The release a
    successful call answers has the cover and the file the release had
    before the call. *)
Theorem publish_keeps_cover_and_file (I : Imports) (w : World) (db : Catalog)
  (args : PublishArgs) (context : ResolverContext) (u : string) (caller : User)
  (r : StoreBookRelease) (b : StoreBook) (x : StoreBookRelease) :
  Reaches I w args context u caller r b ->
  NoDup (map id (storeBookReleases w)) ->
  result (run (publishStoreBookRelease I args context) w) = inr (Some x) ->
  cover I db x = cover I db r /\ file db x = file db r.
Proof.
  intros R ND H.
  destruct (publish_success_inv _ _ _ _ H) as (u' & caller' & r' & b' & R' & E & K).
  pose proof R as (Hu & _ & Hr & _). pose proof R' as (Hu' & _ & Hr' & _).
  assert (u' = u) by congruence. subst u'. assert (r' = r) by congruence. subst r'.
  destruct (publish_success_run R' E K ND) as [S _].
  assert (x = applyData (publishData args (clock w)) r) by congruence. subst x.
  split; reflexivity.
Qed.

Lemma publish_keeps_cover_and_file_witness :
  let x := applyData (publishData firstEdition 1700000000) sampleRelease in
  (Reaches sampleImports digitalWorld firstEdition owner "R1" (mkUser 42) sampleRelease
     (mkStoreBook 3 (Some "published")) /\
   NoDup (map id (storeBookReleases digitalWorld)) /\
   result (run (publishStoreBookRelease sampleImports firstEdition owner) digitalWorld)
   = inr (Some x)) /\
  cover sampleImports sampleCatalog x = cover sampleImports sampleCatalog sampleRelease /\
  file sampleCatalog x = file sampleCatalog sampleRelease.
Proof.
  assert (R : Reaches sampleImports digitalWorld firstEdition owner "R1" (mkUser 42)
                sampleRelease (mkStoreBook 3 (Some "published"))) by (repeat split).
  assert (N : NoDup (map id (storeBookReleases digitalWorld))).
  { cbn. constructor; [cbn; intros [H | []]; discriminate |].
    constructor; [intros [] | constructor]. }
  split; [repeat split; assumption |].
  exact (@publish_keeps_cover_and_file sampleImports digitalWorld sampleCatalog firstEdition
           owner "R1" (mkUser 42) sampleRelease (mkStoreBook 3 (Some "published")) _
           R N eq_refl).
Defined.

(** ** URLs of table objects *)

Lemma append_injective (p a b : string) : (p ++ a = p ++ b)%string -> a = b.
Proof.
  induction p as [| ch p IH]; cbn; intro H; [exact H |].
  injection H as H. auto.
Qed.

(** X20: the URL the converters of [utils.ts] give to a cover, a publisher
    logo or an author profile image determines the uuid of the table
    object: two objects get the same URL only if they have the same uuid,
    and the three converters give one and the same URL to one uuid. *)
Theorem converted_urls_identify_objects (obj1 obj2 : TableObject) :
  (ccUrl (convertTableObjectToStoreBookCover obj1)
   = ccUrl (convertTableObjectToStoreBookCover obj2) <-> objUuid obj1 = objUuid obj2) /\
  ubUrl (convertTableObjectToPublisherLogo obj1)
  = ccUrl (convertTableObjectToStoreBookCover obj1) /\
  ubUrl (convertTableObjectToAuthorProfileImage obj1)
  = ccUrl (convertTableObjectToStoreBookCover obj1).
Proof.
  cbn [ccUrl ubUrl convertTableObjectToStoreBookCover convertTableObjectToPublisherLogo
       convertTableObjectToAuthorProfileImage].
  repeat split.
  - unfold cdnUrl. apply append_injective.
  - intros ->. reflexivity.
Qed.

(** ** The webhook *)


